(** * gift/pipelines/pipeline_utils.py: scheduler, layer sampling, matching
      and interpolation

    A shallow embedding of the alignment and interpolation utilities of
    [pipeline_utils.py], with the properties its specification states.

    Conventions of the embedding:
    - Python numbers (ints and floats) are exact rationals [Q]; results are
      compared with [==] ([Qeq]).  [x // y] is the floor of the quotient.
      The value a schedule takes depends on how the interpreter rounds:
      for it, module [Py] has the integers and binary64 floats of the
      interpreter and [scheduler] over them.
    - A raised exception is a value of [exn]; a call either returns or
      raises ([result]).
    - A [dict] with string keys is a [gmap string _].
    - A random draw is an explicit argument of the function that makes it.
    - Primitives of JAX and helpers of [gift.tasks.domain_mapping_utils]
      whose code is not part of this file are fields of [Externals]. *)

From Stdlib Require Import QArith Qround Qminmax Permutation Ascii Lqa SpecFloat.
From stdpp Require Import gmap strings list pretty.

Close Scope Q_scope.
Local Open Scope string_scope.
Local Open Scope list_scope.
Local Open Scope nat_scope.
Local Open Scope stdpp_scope.

(** ** Exceptions and results *)

Inductive exn : Type :=
| AssertionError (msg : string)
| ValueError (msg : string)
| KeyError (key : string)
| TypeError
| ZeroDivisionError
| IndexError
| OverflowError.

Inductive result (A : Type) : Type :=
| Ok (a : A)
| Raise (e : exn).
Arguments Ok {A} a.
Arguments Raise {A} e.

(** Sequencing: the first exception raised ends the call. *)
Global Instance result_bind : MBind result := fun A B k m =>
  match m with
  | Ok a => k a
  | Raise e => Raise e
  end.

Definition assert (b : bool) (msg : string) : result unit :=
  if b then Ok tt else Raise (AssertionError msg).

(** The error classes of the specification, as sets of Python exceptions:
    a configuration error is the [ValueError] of an unsupported setting, a
    shape mismatch is the failed shape assertion. *)
Definition ConfigurationError (e : exn) : Prop := exists msg, e = ValueError msg.
Definition ShapeMismatchError (e : exn) : Prop := exists msg, e = AssertionError msg.

(** ** Python values held by a configuration dict *)

Inductive value : Type :=
| VNone
| VNum (q : Q)
| VStr (s : string).

(** [d[k]] *)
Definition getitem (d : gmap string value) (k : string) : result value :=
  match d !! k with
  | Some v => Ok v
  | None => Raise (KeyError k)
  end.

(** [d.get(k, default)] *)
Definition dict_get (d : gmap string value) (k : string) (default : value) : value :=
  match d !! k with
  | Some v => v
  | None => default
  end.

(** [v == 'literal'] *)
Definition eq_str (v : value) (s : string) : bool :=
  match v with
  | VStr t => bool_decide (t = s)
  | _ => false
  end.

(** [v is not None] *)
Definition is_not_none (v : value) : bool :=
  match v with
  | VNone => false
  | _ => true
  end.

(** The operand of an arithmetic operator or a comparison with a number. *)
Definition num (v : value) : result Q :=
  match v with
  | VNum q => Ok q
  | _ => Raise TypeError
  end.

Definition Qis_zero (q : Q) : bool := Qeq_bool q 0%Q.

(** [x / y] *)
Definition truediv (x y : Q) : result Q :=
  if Qis_zero y then Raise ZeroDivisionError else Ok (x / y)%Q.

(** [x // y] *)
Definition floordiv (x y : Q) : result Q :=
  if Qis_zero y then Raise ZeroDivisionError else Ok (inject_Z (Qfloor (x / y)%Q)).

(** [x > y] *)
Definition Qgtb (x y : Q) : bool := negb (Qle_bool x y).

(** [jnp.maximum(x, y)] and [jnp.minimum(x, y)] on scalars. *)
Definition maximum (x y : Q) : Q := if Qle_bool x y then y else x.
Definition minimum (x y : Q) : Q := if Qle_bool x y then x else y.

(** ** scheduler *)

Definition scheduler (step : Z) (params : gmap string value) : result value :=
  mode ← getitem params "mode";
  if eq_str mode "constant" then
    getitem params "initial_value"
  else if eq_str mode "linear_decay" then
    let num_steps := dict_get params "num_steps" (VNum 1%Q) in
    total_steps ← getitem params "total_steps";
    total_steps ← num total_steps;
    num_steps ← num num_steps;
    step_size ← truediv total_steps num_steps;
    decay_size ←
      (if Qgtb num_steps 1%Q then
         initial_value ← getitem params "initial_value";
         min_value ← getitem params "min_value";
         initial_value ← num initial_value;
         min_value ← num min_value;
         truediv (initial_value - min_value)%Q (num_steps - 1)%Q
       else Ok 0%Q);
    initial_value ← getitem params "initial_value";
    segment ← floordiv (inject_Z step) step_size;
    initial_value ← num initial_value;
    let value := (initial_value - segment * decay_size)%Q in
    if is_not_none (dict_get params "min_value" VNone) then
      min_value ← getitem params "min_value";
      min_value ← num min_value;
      Ok (VNum (maximum min_value value))
    else Ok (VNum value)
  else if eq_str mode "linear_grow" then
    let num_steps := dict_get params "num_steps" (VNum 1%Q) in
    total_steps ← getitem params "total_steps";
    total_steps ← num total_steps;
    num_steps ← num num_steps;
    step_size ← truediv total_steps num_steps;
    decay_size ←
      (if Qgtb num_steps 1%Q then
         max_value ← getitem params "max_value";
         initial_value ← getitem params "initial_value";
         max_value ← num max_value;
         initial_value ← num initial_value;
         truediv (max_value - initial_value)%Q (num_steps - 1)%Q
       else Ok 0%Q);
    segment ← floordiv (inject_Z step) step_size;
    let value := (segment * decay_size)%Q in
    if is_not_none (dict_get params "max_value" VNone) then
      max_value ← getitem params "max_value";
      max_value ← num max_value;
      Ok (VNum (minimum max_value value))
    else Ok (VNum value)
  else
    (* no branch taken: the function ends without a return statement *)
    Ok VNone.

Definition decay_example : gmap string value :=
  <["mode" := VStr "linear_decay"]>
  (<["initial_value" := VNum 10%Q]>
  (<["min_value" := VNum 0%Q]>
  (<["num_steps" := VNum 5%Q]>
  (<["total_steps" := VNum 10%Q]> ∅)))).

(** ** sample_layer *)

(** [onp.arange(lo, hi)] *)
Definition arange (lo hi : Z) : list Z :=
  map (fun k => (lo + Z.of_nat k)%Z) (seq 0 (Z.to_nat (hi - lo))).

(** [onp.random.choice(a, replace=True, p=None)]: the element of [a] at the
    position the generator draws; an empty [a] is refused. *)
Definition random_choice (draw : nat) (a : list Z) : result Z :=
  match a with
  | [] => Raise (ValueError "'a' cannot be empty unless no samples are taken")
  | x :: _ => Ok (nth (draw mod length a) a x)
  end.

(** [l[i]] on a Python list; a negative index counts from the end. *)
Definition list_getitem {A : Type} (l : list A) (i : Z) : result A :=
  let n := Z.of_nat (length l) in
  let j := if (i <? 0)%Z then (i + n)%Z else i in
  if ((0 <=? j)%Z && (j <? n)%Z)%bool then
    match l !! Z.to_nat j with
    | Some x => Ok x
    | None => Raise IndexError
    end
  else Raise IndexError.

(** Truth value of an optional tuple and of an optional list. *)
Definition truthy_range (r : option (Z * Z)) : bool :=
  match r with Some _ => true | None => false end.
Definition truthy_list (l : option (list Z)) : bool :=
  match l with Some (_ :: _) => true | _ => false end.

Definition sample_layer (draw : nat) (layer_keys : list string)
    (mixup_layer_range : option (Z * Z)) (mixup_layers : option (list Z))
    : result string :=
  _ ← assert (negb (truthy_range mixup_layer_range && truthy_list mixup_layers))
        "Only one of mixup_layer_range and mixup_layers should be set.";
  layers ←
    match mixup_layer_range with
    | Some r =>
        let max_mixup_layer := r.2 in
        let min_mixup_layer := r.1 in
        let min_layer := Z.max max_mixup_layer 0 in
        let max_layer := Z.min min_mixup_layer (Z.of_nat (length layer_keys)) in
        Ok (arange min_layer max_layer)
    | None =>
        match mixup_layers with
        | Some l => Ok l
        | None =>
            Raise (ValueError "One of mixup_layer_range and mixup_layers should be set.")
        end
    end;
  i ← random_choice draw layers;
  list_getitem layer_keys i.

(** The hyper-parameters [get_sample_layer_params] reads; a key that is not
    set is [None]. *)
Record hparams : Type := HParams {
  mixup_layer_set : option (list Z);
  min_mixup_layer : option Z;
  max_mixup_layer : option Z
}.

Definition get_sample_layer_params (hp : hparams) (layer_keys : list string)
    : list string * list Z :=
  match mixup_layer_set hp with
  | Some mixup_layers => (layer_keys, mixup_layers)
  | None =>
      let n := Z.of_nat (length layer_keys) in
      let min_layer := Z.max (default 0%Z (min_mixup_layer hp)) 0 in
      let max_layer := Z.min (default n (max_mixup_layer hp)) n in
      (layer_keys, arange min_layer max_layer)
  end.

(** ** Arrays *)

(** A two-dimensional array is the list of its rows.  An array of higher
    rank is seen along its first axis: [rows] holds, for each index of the
    first axis, the entries below it in row-major order, and [inner_shape]
    the remaining dimensions. *)
Record ndarray : Type := NDArray {
  inner_shape : list nat;
  rows : list (list Q)
}.

Definition shape (x : ndarray) : list nat := length (rows x) :: inner_shape x.

Definition row_size (x : ndarray) : nat := foldr Nat.mul 1 (inner_shape x).

(** Every row holds as many entries as the inner dimensions say. *)
Definition wf_ndarray (x : ndarray) : Prop :=
  Forall (fun r => length r = row_size x) (rows x).

(** [x.reshape((x.shape[0], -1))]: the size of the second axis cannot be
    inferred when the first is empty. *)
Definition reshape_rows (x : ndarray) : result (list (list Q)) :=
  match rows x with
  | [] => Raise (ValueError "cannot reshape array of size 0 into shape (0,-1)")
  | _ => Ok (rows x)
  end.

Definition Qsum (l : list Q) : Q := foldr Qplus 0%Q l.

(** [jnp.eye(n)] and [jnp.ones((k, n))] *)
Definition eye (n : nat) : list (list Q) :=
  map (fun i => map (fun j => if bool_decide (i = j) then 1%Q else 0%Q) (seq 0 n))
      (seq 0 n).
Definition ones (k n : nat) : list (list Q) := repeat (repeat 1%Q n) k.

(** Entrywise operations; the operands of a binary one have one shape
    (broadcasting an axis of size one is not part of the embedding). *)
Definition mshape (m : list (list Q)) : list nat := map length m.

Definition mmap (f : Q -> Q) (m : list (list Q)) : list (list Q) := map (map f) m.

Definition mzip (f : Q -> Q -> Q) (m1 m2 : list (list Q)) : result (list (list Q)) :=
  if bool_decide (mshape m1 = mshape m2) then Ok (zip_with (zip_with f) m1 m2)
  else Raise (ValueError "operands could not be broadcast together").

(** [jnp.max(m)] *)
Definition mmax (m : list (list Q)) : result Q :=
  match concat m with
  | [] => Raise (ValueError "zero-size array to reduction operation max which has no identity")
  | x :: l => Ok (foldl maximum x l)
  end.

(** [jax.random.permutation(rng, x)]: the rows of [x] in the order [ind],
    the shuffle of [arange(len(x))] drawn from the key. *)
Definition random_permutation {A : Type} (ind : list nat) (x : list (list A))
    : list (list A) :=
  map (fun i => nth i x []) ind.

(** [jnp.einsum('ij,j...->i...', m, x)] *)
Definition vscale (c : Q) (v : list Q) : list Q := map (Qmult c) v.
Definition vadd (u v : list Q) : list Q := zip_with Qplus u v.
Definition vsum (width : nat) (vs : list (list Q)) : list Q :=
  foldr vadd (repeat 0%Q width) vs.

Definition einsum_ij_j (m : list (list Q)) (x : ndarray) : result ndarray :=
  if forallb (fun r => length r =? length (rows x)) m then
    Ok (NDArray (inner_shape x)
          (map (fun mi => vsum (row_size x) (zip_with vscale mi (rows x))) m))
  else Raise (ValueError "einsum: size of label 'j' does not match").

(** ** Parameter trees and the training state *)

#[warnings="-register-all"] Inductive pytree : Type :=
| PLeaf (x : ndarray)
| PNone
| PDict (items : list (string * pytree)).

(** [jax.tree_leaves] *)
Fixpoint tree_leaves (t : pytree) : list ndarray :=
  match t with
  | PLeaf x => [x]
  | PNone => []
  | PDict items =>
      (fix go (l : list (string * pytree)) : list ndarray :=
         match l with
         | [] => []
         | (_, c) :: l' => tree_leaves c ++ go l'
         end) items
  end.

(** What the file calls and does not define: the random generator and the
    collective of JAX, the optimizer of Flax, and the optimal-transport
    solver and rounding of [gift.tasks.domain_mapping_utils]. *)
Class Externals : Type := {
  PRNGKey : Type;
  Optimizer : Type;
  (** [jax.random.beta(rng, a, b, shape=(k, n))] *)
  random_beta : PRNGKey -> Q -> Q -> nat -> nat -> list (list Q);
  (** [pmap_mean]: [jax.lax.pmean] under [jax.pmap] *)
  pmap_mean : pytree -> pytree;
  (** [sinkhorn_dual_solver(a, b, cost, epsilon, num_iters)] *)
  sinkhorn_dual_solver :
    list Q -> list Q -> list (list Q) -> Q -> nat ->
    list Q * list (list Q) * list Q;
  (** [round_coupling(coupling, a, b)] *)
  round_coupling : list (list Q) -> list Q -> list Q -> list (list Q)
}.

Record TrainState `{Externals} : Type := MkTrainState {
  global_step : Z;
  optimizer : Optimizer;
  model_state : pytree;
  rng : PRNGKey
}.

(** [train_state.replace(model_state=ms)] *)
Definition replace_model_state `{Externals} (s : TrainState) (ms : pytree) : TrainState :=
  MkTrainState _ (global_step s) (optimizer s) ms (rng s).

(** The call returns the warnings it logs together with the state. *)
Definition sync_model_state_across_replicas `{Externals} (train_state : TrainState)
    : list string * TrainState :=
  let log := ["All model state statistics are averaged during syncing" +:+
              "across replicas."] in
  match tree_leaves (model_state train_state) with
  | _ :: _ => (log, replace_model_state train_state (pmap_mean (model_state train_state)))
  | [] => (log, train_state)
  end.

(** ** get_self_matching_matrix *)

(** A batch of examples; a key the dict does not hold is [None]. *)
Record batch : Type := Batch {
  inputs : option ndarray;
  label : option (list Z)
}.

Definition batch_getitem {A : Type} (field : option A) (key : string) : result A :=
  match field with
  | Some v => Ok v
  | None => Raise (KeyError key)
  end.

(** Modelled from the spec: [domain_mapping_utils.pairwise_l2], whose code
    is in another file; the squared Euclidean distance between every row of
    [x] and every row of [y]. *)
Definition sq_dist (u v : list Q) : Q :=
  Qsum (zip_with (fun a b => ((a - b) * (a - b))%Q) u v).
Definition pairwise_l2 (x y : list (list Q)) : list (list Q) :=
  map (fun u => map (sq_dist u) y) x.

(** Modelled from the spec: [domain_mapping_utils.pairwise_equality_1d],
    whose code is in another file; 1 where the labels match, 0 otherwise. *)
Definition pairwise_equality_1d (x y : list Z) : list (list Q) :=
  map (fun a => map (fun b => if bool_decide (a = b) then 1%Q else 0%Q) y) x.

(** The cost matrix of the sinkhorn branch, the local [adjusted_cost]. *)
Definition adjusted_cost (x : list (list Q)) (labels : list Z)
    (label_cost l2_cost : Q) : result (list (list Q)) :=
  let y := x in
  let num_x := length x in
  let cost := pairwise_l2 x y in
  top ← mmax cost;
  cost ← mzip Qplus cost (mmap (fun e => (e * top * 10)%Q) (eye num_x));
  let same_labels := pairwise_equality_1d labels labels in
  mzip Qplus (mmap (fun e => ((1 - e) * label_cost)%Q) same_labels)
             (mmap (fun e => (l2_cost * e)%Q) cost).

Definition get_self_matching_matrix `{Externals} (ind : list nat) (b : batch)
    (reps : ndarray) (mode : string) (label_cost l2_cost : Q)
    : result (list (list Q)) :=
  if bool_decide (mode = "random") then
    inp ← batch_getitem (inputs b) "inputs";
    let number_of_examples := length (rows inp) in
    let matching_matrix := eye number_of_examples in
    Ok (random_permutation ind matching_matrix)
  else if bool_decide (mode = "sinkhorn") then
    let epsilon := (1 # 10)%Q in
    let num_iters := 100 in
    x ← reshape_rows reps;
    labels ← batch_getitem (label b) "label";
    let num_x := length x in
    let num_y := length x in
    let a := repeat 1%Q num_x in
    let b := repeat 1%Q num_y in
    cost ← adjusted_cost x labels label_cost l2_cost;
    let '(_, matching, _) := sinkhorn_dual_solver a b cost epsilon num_iters in
    Ok (round_coupling matching
          (repeat 1%Q (length matching))
          (repeat 1%Q (length (hd [] matching))))
  else
    Raise (ValueError (mode +:+ " mode for self matching alignment is not supported.")).

(** ** interpolate *)

(** Modelled from the spec: [tensor_util.convex_interpolate], whose code is
    in another file; [(1 - lambda) * x + lambda * y] entrywise, one result
    per row of [lmbda], the coefficient [lmbda[k][i]] applied to example
    [i]. *)
Definition convex_row (l : Q) (u v : list Q) : list Q :=
  zip_with (fun a b => ((1 - l) * a + l * b)%Q) u v.
Definition convex_interpolate (x y : ndarray) (lmbda : list (list Q))
    : result (list ndarray) :=
  if (bool_decide (shape x = shape y) &&
      forallb (fun l => length l =? length (rows x)) lmbda)%bool then
    Ok (map (fun lam =>
               NDArray (inner_shape x)
                 (zip_with (fun l uv => convex_row l uv.1 uv.2) lam
                    (zip (rows x) (rows y))))
            lmbda)
  else Raise (ValueError "operands could not be broadcast together").

Definition interpolate `{Externals} {T : Type} (rng : PRNGKey)
    (matching_matrix : list (list Q)) (reps1 reps2 : ndarray) (num_lambdas : nat)
    (alpha beta lmbda : Q)
    (interpolation_method : ndarray -> ndarray -> list (list Q) -> result T)
    : result (T * list (list Q)) :=
  _ ← assert (bool_decide (shape reps1 = shape reps2))
        "To be interpolated reps should have similar shape.";
  reps2 ← einsum_ij_j matching_matrix reps2;
  let sample_lambdas :=
    if negb (Qeq_bool lmbda (-1)%Q) then
      mmap (fun e => (e * lmbda)%Q) (ones num_lambdas (length (rows reps1)))
    else random_beta rng alpha beta num_lambdas (length (rows reps1)) in
  new_reps ← interpolation_method reps1 reps2 sample_lambdas;
  Ok (new_reps, sample_lambdas).

(** ** get_weight_param *)

(** The hyper-parameters [get_weight_param] reads.  A [ConfigDict] keeps
    the type of each of its fields: a weight is a scalar, its [_params]
    field a dict. *)
Record weight_hparams : Type := WeightHParams {
  scalars : gmap string value;
  schedules : gmap string (gmap string value)
}.

Definition get_weight_param (hp : weight_hparams) (param_name : string)
    (default_value : value) : gmap string value :=
  let default_params : gmap string value :=
    <["initial_value" := default default_value (scalars hp !! param_name)]>
    (<["mode" := VStr "constant"]> ∅) in
  default default_params (schedules hp !! (param_name +:+ "_params")).

(** ** get_num_training_steps *)

(** The call returns its pair, raises one of the exceptions of [exn], or
    raises the [AttributeError] of a [ConfigDict] field that is not there. *)
Inductive steps_outcome : Type :=
| Returns (total_steps : Z) (steps_per_epoch : option Z)
| Raises (e : exn)
| RaisesAttributeError (name : string).

(** The fields read here are integers or [None]: a key maps to [Some n],
    to [None] for Python's [None], or is not in the map. *)
Definition get_num_training_steps (hp : gmap string (option Z))
    (dataset_metadata : gmap string (option Z)) : steps_outcome :=
  let from_epochs :=
    match hp !! "num_training_epochs" with
    | None => RaisesAttributeError "num_training_epochs"
    | Some None => Raises (AssertionError "")
    | Some (Some epochs) =>
        if (epochs =? 0)%Z then Raises (AssertionError "")
        else
          match dataset_metadata !! "num_train_examples" with
          | None => Raises (KeyError "num_train_examples")
          | Some examples =>
              match hp !! "batch_size" with
              | None => RaisesAttributeError "batch_size"
              | Some batch_size =>
                  match examples, batch_size with
                  | Some n, Some b =>
                      if (b =? 0)%Z then Raises ZeroDivisionError
                      else
                        let steps_per_epoch := (n `div` b)%Z in
                        Returns (steps_per_epoch * epochs)%Z (Some steps_per_epoch)
                  | _, _ => Raises TypeError
                  end
              end
          end
    end in
  match hp !! "num_training_steps" with
  | Some (Some steps) =>
      if (steps =? 0)%Z then from_epochs
      else
        match hp !! "num_training_epochs" with
        | Some (Some epochs) =>
            if (epochs =? 0)%Z then Returns steps None
            else Raises (AssertionError "")
        | _ => Returns steps None
        end
  | _ => from_epochs
  end.

(** ** checkpoint_path *)

(** [b.startswith('/')] and [a.endswith('/')] *)
Definition starts_with_sep (b : string) : bool :=
  match b with
  | String c _ => bool_decide (c = "/"%char)
  | EmptyString => false
  end.
Fixpoint ends_with_sep (a : string) : bool :=
  match a with
  | EmptyString => false
  | String c EmptyString => bool_decide (c = "/"%char)
  | String _ a' => ends_with_sep a'
  end.

(** [os.path.join(a, b)] on a POSIX system. *)
Definition path_join (a b : string) : string :=
  if starts_with_sep b then b
  else if (bool_decide (a = "") || ends_with_sep a)%bool then a +:+ b
  else a +:+ "/" +:+ b.

(** [f'{prefix}{step}'] writes the step in decimal. *)
Definition checkpoint_path (ckpt_dir : string) (step : Z) (prefix : string) : string :=
  path_join ckpt_dir (prefix +:+ pretty step).

(** ** bind_rng_to_host_device *)

(** The host and device the code runs on, and [jax.random.fold_in]. *)
Class Devices `{Externals} : Type := {
  host_id : nat;
  axis_index : string -> nat;
  fold_in : PRNGKey -> nat -> PRNGKey
}.

Definition bind_rng_to_host_device `{Devices} (key : PRNGKey) (axis_name : string)
    (bind_to : option (list string)) : result PRNGKey :=
  let bind_to := default ["host"; "device"] bind_to in
  _ ← assert (forallb (fun entry => bool_decide (entry ∈ ["host"; "device"])) bind_to) "";
  let key := if bool_decide ("host" ∈ bind_to) then fold_in key host_id else key in
  let key :=
    if bool_decide ("device" ∈ bind_to) then fold_in key (axis_index axis_name)
    else key in
  Ok key.

(** ** pseudo_label_generator *)

(** [jax.random.split] and the forward pass of the model held by the
    optimizer, run with a model state, a key for its stochastic layers and
    the train flag. *)
Class Forward `{Externals} : Type := {
  random_split : PRNGKey -> PRNGKey * PRNGKey;
  apply_model : Optimizer -> pytree -> PRNGKey -> ndarray -> bool -> ndarray
}.

(** [batch[key]] on a batch of arrays. *)
Definition batch_lookup (b : gmap string ndarray) (key : string) : result ndarray :=
  match b !! key with
  | Some x => Ok x
  | None => Raise (KeyError key)
  end.

(** The batch is updated in place and handed back; the map returned is the
    content of the caller's dict after the call. *)
Definition pseudo_label_generator `{Forward} (b : gmap string ndarray)
    (train_state : TrainState)
    (pseudo_labels_transformer_fn : ndarray -> ndarray * option ndarray)
    (input_key : string) (train : bool) : result (gmap string ndarray) :=
  inp ← batch_lookup b input_key;
  let '(_, dropout_rng) := random_split (rng train_state) in
  let logits :=
    apply_model (optimizer train_state) (model_state train_state) dropout_rng
      inp train in
  let '(new_label, weights) := pseudo_labels_transformer_fn logits in
  let b := <["label" := new_label]> b in
  match weights with
  | Some w => Ok (<["weights" := w]> b)
  | None => Ok b
  end.

(** The default transformer, [lambda x: (x, None)]. *)
Definition keep_logits (x : ndarray) : ndarray * option ndarray := (x, None).

(** ** compute_global_mean_metrics *)

(** A metric is a pair of arrays, the values and their normalizers, or one
    array; the arrays are the lists of their entries.  A mean is a number
    or, for an array without entries, not a number. *)
Inductive metric : Type :=
| MetricPair (values normalizers : list Q)
| MetricArray (a : list Q).

Inductive number : Type :=
| Finite (q : Q)
| NaN.

Definition global_mean (m : metric) : number :=
  match m with
  | MetricPair values normalizers =>
      if Qgtb (Qsum normalizers) 0%Q then Finite (Qsum values / Qsum normalizers)%Q
      else Finite 0%Q
  | MetricArray a =>
      match a with
      | [] => NaN
      | _ => Finite (Qsum a / inject_Z (Z.of_nat (length a)))%Q
      end
  end.

Definition compute_global_mean_metrics (metrics_dict : gmap string metric)
    : gmap string number :=
  global_mean <$> metrics_dict.

(** ** logit_transformer *)

(** What [logit_transformer] takes from JAX and Flax beyond maxima:
    [jnp.quantile], [nn.softmax] along the last axis, and the selection
    [row[logit_indices]] of entries of a row. *)
Class Numerics : Type := {
  quantile : list Q -> Q -> Q;
  softmax : list Q -> list Q;
  take_classes : list Q -> list Z -> list Q
}.

(** [f] on every element, up to the first exception. *)
Fixpoint result_map {A B : Type} (f : A -> result B) (l : list A) : result (list B) :=
  match l with
  | [] => Ok []
  | x :: l' => y ← f x; ys ← result_map f l'; Ok (y :: ys)
  end.

(** [jnp.amax], [jnp.amin] and [jnp.argmax] of one row; [argmax] is the
    index of the first largest entry. *)
Definition row_max (row : list Q) : result Q :=
  match row with
  | [] => Raise (ValueError "zero-size array to reduction operation max which has no identity")
  | x :: l => Ok (foldl maximum x l)
  end.
Definition row_min (row : list Q) : result Q :=
  match row with
  | [] => Raise (ValueError "zero-size array to reduction operation min which has no identity")
  | x :: l => Ok (foldl minimum x l)
  end.
Fixpoint argmax_from (best : Q) (best_i i : nat) (l : list Q) : nat :=
  match l with
  | [] => best_i
  | x :: l' =>
      if Qgtb x best then argmax_from x i (S i) l'
      else argmax_from best best_i (S i) l'
  end.
Definition argmax (row : list Q) : result nat :=
  match row with
  | [] => Raise (ValueError "attempt to get argmax of an empty sequence")
  | x :: l => Ok (argmax_from x 0 1 l)
  end.

(** The labels are class indices, one per example, or an array shaped like
    the logits. *)
Inductive labels : Type :=
| ClassLabels (l : list nat)
| ArrayLabels (m : list (list Q)).

(** The logits are a two-dimensional array, one row of class scores per
    example; [jnp.quantile] refuses an array without entries. *)
Definition logit_transformer `{Numerics} (logits : list (list Q))
    (temp confidence_quantile_threshold : Q)
    (self_supervised_label_transformation : string)
    (logit_indices : option (list Z)) : result (labels * list Q) :=
  top ← result_map row_max logits;
  bottom ← result_map row_min logits;
  let confidence := zip_with Qminus top bottom in
  alpha ←
    match confidence with
    | [] => Raise TypeError
    | _ :: _ => Ok (quantile confidence confidence_quantile_threshold)
    end;
  let weights := map (fun c => if Qle_bool alpha c then 1%Q else 0%Q) confidence in
  if bool_decide (self_supervised_label_transformation = "sharp") then
    let logits :=
      match logit_indices with
      | Some (i :: l) => map (fun row => take_classes row (i :: l)) logits
      | _ => logits
      end in
    new_labels ← result_map argmax logits;
    Ok (ClassLabels new_labels, weights)
  else if bool_decide (self_supervised_label_transformation = "soft") then
    let t := if Qis_zero temp then 1%Q else temp in
    Ok (ArrayLabels (map (fun row => softmax (map (fun x => (x / t)%Q) row)) logits),
        weights)
  else Ok (ArrayLabels logits, weights).

(** ** Python numbers *)

(** For a claim on the value of a schedule the numbers are the ones of the
    interpreter: integers of any size and IEEE 754 binary64 floats, every
    operation rounded to nearest, ties to even; a [jnp] array of a scalar
    is a binary32 float. *)
Module Py.

Inductive number : Type :=
| Int (z : Z)
| Float (f : spec_float).

Inductive pyvalue : Type :=
| None_
| Num (n : number)
| Str (s : string).

(** What [scheduler] returns: a Python value ([None] when the function
    ends without a return statement), or the [jnp] array of [jnp.maximum]
    and [jnp.minimum]. *)
Inductive schedule_value : Type :=
| Plain (v : pyvalue)
| Array32 (f : spec_float).

Definition fadd : spec_float -> spec_float -> spec_float := SFadd 53 1024.
Definition fsub : spec_float -> spec_float -> spec_float := SFsub 53 1024.
Definition fmul : spec_float -> spec_float -> spec_float := SFmul 53 1024.
Definition fdiv : spec_float -> spec_float -> spec_float := SFdiv 53 1024.

Definition is_zero (f : spec_float) : bool :=
  match f with S754_zero _ => true | _ => false end.
Definition is_infinite (f : spec_float) : bool :=
  match f with S754_infinity _ => true | _ => false end.
Definition sign_of (f : spec_float) : bool :=
  match f with
  | S754_zero s | S754_infinity s | S754_finite s _ _ => s
  | S754_nan => false
  end.

(** [float(z)]: the nearest float, [OverflowError] beyond the largest. *)
Definition round_int (z : Z) : spec_float := binary_normalize 53 1024 z 0 false.
Definition float_of_int (z : Z) : result spec_float :=
  if is_infinite (round_int z) then Raise OverflowError else Ok (round_int z).
Definition to_float (n : number) : result spec_float :=
  match n with
  | Int z => float_of_int z
  | Float f => Ok f
  end.

(** The operand of an arithmetic operator. *)
Definition num (v : pyvalue) : result number :=
  match v with
  | Num n => Ok n
  | _ => Raise TypeError
  end.

(** [a - b] and [a * b] *)
Definition sub (a b : number) : result number :=
  match a, b with
  | Int x, Int y => Ok (Int (x - y))
  | _, _ => x ← to_float a; y ← to_float b; Ok (Float (fsub x y))
  end.
Definition mul (a b : number) : result number :=
  match a, b with
  | Int x, Int y => Ok (Int (x * y))
  | _, _ => x ← to_float a; y ← to_float b; Ok (Float (fmul x y))
  end.

(** [a / b]; the quotient of two integers is rounded once. *)
Definition exact_int (z : Z) : spec_float :=
  match z with
  | Z0 => S754_zero false
  | Zpos p => S754_finite false p 0
  | Zneg p => S754_finite true p 0
  end.
Definition truediv (a b : number) : result number :=
  match a, b with
  | Int x, Int y =>
      if (y =? 0)%Z then Raise ZeroDivisionError
      else
        let q := fdiv (exact_int x) (exact_int y) in
        if is_infinite q then Raise OverflowError else Ok (Float q)
  | _, _ =>
      x ← to_float a; y ← to_float b;
      if is_zero y then Raise ZeroDivisionError else Ok (Float (fdiv x y))
  end.

(** [fmod(x, y)] of the C library: the exact remainder of the division
    truncated towards zero, with the sign of [x]. *)
Definition fmod (x y : spec_float) : spec_float :=
  match x, y with
  | S754_nan, _ | _, S754_nan => S754_nan
  | S754_infinity _, _ => S754_nan
  | _, S754_zero _ => S754_nan
  | S754_zero _, _ => x
  | S754_finite _ _ _, S754_infinity _ => x
  | S754_finite sx mx ex, S754_finite _ my ey =>
      let e := Z.min ex ey in
      let r := ((Zpos mx * 2 ^ (ex - e)) `mod` (Zpos my * 2 ^ (ey - e)))%Z in
      binary_normalize 53 1024 (cond_Zopp sx r) e sx
  end.

(** [floor(x)] *)
Definition ffloor (x : spec_float) : spec_float :=
  match x with
  | S754_finite s m e =>
      if (0 <=? e)%Z then x
      else binary_normalize 53 1024 (Z.shiftr (cond_Zopp s (Zpos m)) (- e)) 0 s
  | _ => x
  end.

Definition one : spec_float := round_int 1.
Definition half : spec_float := binary_normalize 53 1024 1 (-1) false.
Definition negative (x : spec_float) : bool := SFltb x (S754_zero false).

(** [vx // wx] on floats with [wx] other than zero, as the interpreter
    computes it (float_floor_div): from the exact remainder, the quotient
    snapped to the nearest integral value. *)
Definition float_floor_div (vx wx : spec_float) : spec_float :=
  let md := fmod vx wx in
  let div := fdiv (fsub vx md) wx in
  let div :=
    if negb (is_zero md) && xorb (negative wx) (negative md)
    then fsub div one else div in
  if negb (is_zero div) then
    let fl := ffloor div in
    if SFltb half (fsub div fl) then fadd fl one else fl
  else S754_zero (sign_of (fdiv vx wx)).

(** [a // b] *)
Definition floordiv (a b : number) : result number :=
  match a, b with
  | Int x, Int y =>
      if (y =? 0)%Z then Raise ZeroDivisionError else Ok (Int (x `div` y))
  | _, _ =>
      x ← to_float a; y ← to_float b;
      if is_zero y then Raise ZeroDivisionError
      else Ok (Float (float_floor_div x y))
  end.

(** [n > 1] and [n == 1] *)
Definition gt_one (n : number) : bool :=
  match n with
  | Int z => (1 <? z)%Z
  | Float f => SFltb one f
  end.

(** The binary32 array of a Python scalar. *)
Definition to_float32 (n : number) : spec_float :=
  match n with
  | Int z => binary_normalize 24 128 z 0 false
  | Float (S754_finite s m e) => binary_normalize 24 128 (cond_Zopp s (Zpos m)) e s
  | Float f => f
  end.

(** [jnp.maximum(a, b)] and [jnp.minimum(a, b)] on scalars; a NaN wins. *)
Definition jnp_maximum (a b : number) : spec_float :=
  match to_float32 a, to_float32 b with
  | S754_nan, _ | _, S754_nan => S754_nan
  | x, y => if SFltb x y then y else x
  end.
Definition jnp_minimum (a b : number) : spec_float :=
  match to_float32 a, to_float32 b with
  | S754_nan, _ | _, S754_nan => S754_nan
  | x, y => if SFltb y x then y else x
  end.

Definition getitem (d : gmap string pyvalue) (k : string) : result pyvalue :=
  match d !! k with
  | Some v => Ok v
  | None => Raise (KeyError k)
  end.
Definition dict_get (d : gmap string pyvalue) (k : string) (default : pyvalue)
    : pyvalue :=
  match d !! k with
  | Some v => v
  | None => default
  end.
Definition eq_str (v : pyvalue) (s : string) : bool :=
  match v with
  | Str t => bool_decide (t = s)
  | _ => false
  end.
Definition is_not_none (v : pyvalue) : bool :=
  match v with
  | None_ => false
  | _ => true
  end.

Definition scheduler (step : Z) (params : gmap string pyvalue)
    : result schedule_value :=
  mode ← getitem params "mode";
  if eq_str mode "constant" then
    v ← getitem params "initial_value"; Ok (Plain v)
  else if eq_str mode "linear_decay" then
    let num_steps := dict_get params "num_steps" (Num (Int 1)) in
    total_steps ← getitem params "total_steps";
    total_steps ← num total_steps;
    num_steps ← num num_steps;
    step_size ← truediv total_steps num_steps;
    decay_size ←
      (if gt_one num_steps then
         initial_value ← getitem params "initial_value";
         min_value ← getitem params "min_value";
         initial_value ← num initial_value;
         min_value ← num min_value;
         span ← sub initial_value min_value;
         segments ← sub num_steps (Int 1);
         truediv span segments
       else Ok (Int 0));
    initial_value ← getitem params "initial_value";
    segment ← floordiv (Int step) step_size;
    drop ← mul segment decay_size;
    initial_value ← num initial_value;
    value ← sub initial_value drop;
    if is_not_none (dict_get params "min_value" None_) then
      min_value ← getitem params "min_value";
      min_value ← num min_value;
      Ok (Array32 (jnp_maximum min_value value))
    else Ok (Plain (Num value))
  else if eq_str mode "linear_grow" then
    let num_steps := dict_get params "num_steps" (Num (Int 1)) in
    total_steps ← getitem params "total_steps";
    total_steps ← num total_steps;
    num_steps ← num num_steps;
    step_size ← truediv total_steps num_steps;
    decay_size ←
      (if gt_one num_steps then
         max_value ← getitem params "max_value";
         initial_value ← getitem params "initial_value";
         max_value ← num max_value;
         initial_value ← num initial_value;
         span ← sub max_value initial_value;
         span ← to_float span;
         segments ← sub num_steps (Int 1);
         truediv (Float span) segments
       else Ok (Int 0));
    segment ← floordiv (Int step) step_size;
    value ← mul segment decay_size;
    if is_not_none (dict_get params "max_value" None_) then
      max_value ← getitem params "max_value";
      max_value ← num max_value;
      Ok (Array32 (jnp_minimum max_value value))
    else Ok (Plain (Num value))
  else
    (* no branch taken: the function ends without a return statement *)
    Ok (Plain None_).



(** A schedule with integer fields. *)
Definition decay_schedule (initial_value min_value num_steps total_steps : Z)
    : gmap string pyvalue :=
  <["mode" := Str "linear_decay"]>
  (<["initial_value" := Num (Int initial_value)]>
  (<["min_value" := Num (Int min_value)]>
  (<["num_steps" := Num (Int num_steps)]>
  (<["total_steps" := Num (Int total_steps)]> ∅)))).

End Py.

(** ** Reference points of the statements *)

(** The cost of matching example [i] to example [j] in the words of the
    specification; [top] is the largest squared distance of the batch. *)
Definition label_aware_cost (top label_cost l2_cost : Q) (i j : nat)
    (xi xj : list Q) (li lj : Z) : Q :=
  let same_label := if bool_decide (li = lj) then 1%Q else 0%Q in
  let c := (sq_dist xi xj + (if bool_decide (i = j) then 10 * top else 0))%Q in
  ((1 - same_label) * label_cost + l2_cost * c)%Q.

(** Entry [(i, j)] of a matrix. *)
Definition entry (m : list (list Q)) (i j : nat) : option Q :=
  r ← m !! i; r !! j.

(** Sum of column [j]. *)
Definition col_sum (m : list (list Q)) (j : nat) : Q :=
  Qsum (map (fun r => nth j r 0%Q) m).

(** The segment a step falls in, and the change of a linear schedule per
    segment, as [scheduler] computes them. *)
Definition segment_of (step : Z) (total_steps num_steps : Q) : Q :=
  inject_Z (Qfloor (inject_Z step / (total_steps / num_steps))%Q).
Definition change_per_segment (span num_steps : Q) : Q :=
  if Qgtb num_steps 1%Q then (span / (num_steps - 1))%Q else 0%Q.

(** A growing schedule: ten steps in five segments towards 8. *)
Definition grow_example : gmap string value :=
  <["mode" := VStr "linear_grow"]>
  (<["initial_value" := VNum 4%Q]>
  (<["max_value" := VNum 8%Q]>
  (<["num_steps" := VNum 5%Q]>
  (<["total_steps" := VNum 10%Q]> ∅)))).

(** [k] is the index of the first largest entry of [row]. *)
Definition first_largest (row : list Q) (k : nat) : Prop :=
  exists m,
    row !! k = Some m /\
    (forall j x, row !! j = Some x -> (x <= m)%Q) /\
    (forall j x, j < k -> row !! j = Some x -> (x < m)%Q).

(** The same externals with another Beta sampler. *)
Definition with_random_beta (E : Externals)
    (sampler : @PRNGKey E -> Q -> Q -> nat -> nat -> list (list Q)) : Externals :=
  {| PRNGKey := @PRNGKey E;
     Optimizer := @Optimizer E;
     random_beta := sampler;
     pmap_mean := @pmap_mean E;
     sinkhorn_dual_solver := @sinkhorn_dual_solver E;
     round_coupling := @round_coupling E |}.

(** Externals to run the definitions with: a sampler that always draws one
    half, a collective over a single replica, a solver that hands the cost
    back as the coupling, and a rounding that keeps it. *)
Definition sample_externals : Externals :=
  {| PRNGKey := nat;
     Optimizer := unit;
     random_beta := fun _ _ _ k n => repeat (repeat (1 # 2)%Q n) k;
     pmap_mean := fun t => t;
     sinkhorn_dual_solver := fun a b cost _ _ => (a, cost, b);
     round_coupling := fun m _ _ => m |}.

(** Devices and a forward pass to run the definitions with: host 1, the
    device index 3 on every axis, keys folded by pairing, and a model that
    hands its input back. *)
Definition sample_devices : @Devices sample_externals :=
  {| host_id := 1;
     axis_index := fun _ => 3;
     fold_in := fun (k : @PRNGKey sample_externals) (n : nat) => 10 * k + n |}.

Definition sample_forward : @Forward sample_externals :=
  {| random_split := fun (k : @PRNGKey sample_externals) => (2 * k, 2 * k + 1);
     apply_model := fun _ _ _ x _ => x |}.

(** Numerics to run the definitions with: the largest value as every
    quantile, a softmax that keeps its row, and a selection that keeps the
    row. *)
Definition sample_numerics : Numerics :=
  {| quantile := fun l _ => match l with [] => 0%Q | x :: l' => foldl maximum x l' end;
     softmax := fun row => row;
     take_classes := fun row _ => row |}.

(** * Properties *)

Ltac run := unfold mbind, result_bind; simpl.

(** ** scheduler *)

Lemma scheduler_no_branch (step : Z) (params : gmap string value) (mode : value) :
  params !! "mode" = Some mode ->
  eq_str mode "constant" = false ->
  eq_str mode "linear_decay" = false ->
  eq_str mode "linear_grow" = false ->
  scheduler step params = Ok VNone.
Proof.
  intros Hm H1 H2 H3. unfold scheduler, getitem. rewrite Hm. run.
  by rewrite H1, H2, H3.
Qed.

(** C2: a mode that is none of the three is not rejected; the call of
    [scheduler] with mode 'cosine' returns [None] at every step, where the
    specification asks for a configuration error. *)
Theorem scheduler_cosine_returns_none (step : Z) :
  scheduler step (<["mode" := VStr "cosine"]> ∅) = Ok VNone.
Proof.
  apply (scheduler_no_branch _ _ (VStr "cosine")); [|done..].
  apply lookup_insert_eq.
Qed.

(** ** sample_layer *)

Lemma arange_empty (lo hi : Z) : (hi <= lo)%Z -> arange lo hi = [].
Proof.
  intros Hle. unfold arange. replace (Z.to_nat (hi - lo)) with 0 by lia. done.
Qed.

(** Every range whose bounds are in order yields no layer to draw from. *)
Lemma sample_layer_ordered_range_raises (draw : nat) (layer_keys : list string)
    (lo hi : Z) :
  (lo <= hi)%Z ->
  sample_layer draw layer_keys (Some (lo, hi)) None =
  Raise (ValueError "'a' cannot be empty unless no samples are taken").
Proof.
  intros Hle. unfold sample_layer. run.
  rewrite arange_empty by lia. done.
Qed.

(** C1: with layer keys l1, l2, l3 and the range (0, 2), [sample_layer]
    returns no layer: the bounds are read crosswise, the index set is
    empty, and the draw raises [ValueError], whatever the generator
    yields. *)
Theorem sample_layer_range_0_2_raises (draw : nat) :
  sample_layer draw ["l1"; "l2"; "l3"] (Some (0, 2)%Z) None =
  Raise (ValueError "'a' cannot be empty unless no samples are taken").
Proof. by apply sample_layer_ordered_range_raises. Qed.

(** [get_sample_layer_params] clamps the same two bounds the straight way,
    and a draw from its index set is one of the first two layers. *)
Lemma get_sample_layer_params_0_2 :
  get_sample_layer_params (HParams None (Some 0%Z) (Some 2%Z)) ["l1"; "l2"; "l3"] =
  (["l1"; "l2"; "l3"], [0; 1]%Z).
Proof. reflexivity. Qed.

Lemma sample_layer_set_0_1 (draw : nat) :
  sample_layer draw ["l1"; "l2"; "l3"] None (Some [0; 1]%Z) = Ok "l1" \/
  sample_layer draw ["l1"; "l2"; "l3"] None (Some [0; 1]%Z) = Ok "l2".
Proof.
  unfold sample_layer, mbind, result_bind. cbn -[Nat.modulo].
  assert (draw mod 2 = 0 \/ draw mod 2 = 1) as [-> | ->]
    by (pose proof (Nat.mod_upper_bound draw 2); lia); auto.
Qed.

(** ** sync_model_state_across_replicas *)

(** C9: a training state whose model state has no leaves comes back from
    [sync_model_state_across_replicas] as it went in; the call logs its
    warning and nothing else. *)
Theorem sync_empty_model_state `{Externals} (train_state : TrainState) :
  tree_leaves (model_state train_state) = [] ->
  sync_model_state_across_replicas train_state =
  (["All model state statistics are averaged during syncingacross replicas."],
   train_state).
Proof.
  intros Hleaves. unfold sync_model_state_across_replicas. by rewrite Hleaves.
Qed.

Lemma sync_empty_model_state_witness :
  let s := @MkTrainState sample_externals 7%Z tt (PDict [("batch_stats", PNone)]) 0 in
  tree_leaves (@model_state sample_externals s) = [] /\
  (@sync_model_state_across_replicas sample_externals s).2 = s.
Proof.
  split; [reflexivity |].
  rewrite (@sync_empty_model_state sample_externals); reflexivity.
Defined.

(** ** get_self_matching_matrix: unsupported modes *)

(** C8: a mode other than 'random' and 'sinkhorn' makes
    [get_self_matching_matrix] raise the [ValueError] whose message starts
    with the mode string, a configuration error. *)
Theorem matching_unsupported_mode `{Externals} (ind : list nat) (b : batch)
    (reps : ndarray) (mode : string) (label_cost l2_cost : Q) :
  mode <> "random" -> mode <> "sinkhorn" ->
  exists e,
    get_self_matching_matrix ind b reps mode label_cost l2_cost = Raise e /\
    e = ValueError (mode +:+ " mode for self matching alignment is not supported.") /\
    ConfigurationError e.
Proof.
  intros Hr Hs. eexists. split; [|split; [reflexivity | eexists; reflexivity]].
  unfold get_self_matching_matrix.
  rewrite !bool_decide_eq_false_2 by done. done.
Qed.

Lemma matching_unsupported_mode_witness :
  @get_self_matching_matrix sample_externals [] (Batch None None) (NDArray [] [])
    "hungarian" 1%Q 1%Q =
  Raise (ValueError "hungarian mode for self matching alignment is not supported.").
Proof.
  destruct (@matching_unsupported_mode sample_externals [] (Batch None None)
              (NDArray [] []) "hungarian" 1%Q 1%Q) as (e & Hcall & He & _);
    [discriminate | discriminate |].
  rewrite Hcall, He. reflexivity.
Defined.

(** ** interpolate: the shape assertion *)

(** C7: representations of different shapes stop [interpolate] at its
    assertion; the call raises and returns nothing. *)
Theorem interpolate_shape_mismatch `{Externals} {T : Type} (rng : PRNGKey)
    (matching_matrix : list (list Q)) (reps1 reps2 : ndarray) (num_lambdas : nat)
    (alpha beta lmbda : Q)
    (interpolation_method : ndarray -> ndarray -> list (list Q) -> result T) :
  shape reps1 <> shape reps2 ->
  exists e,
    interpolate rng matching_matrix reps1 reps2 num_lambdas alpha beta lmbda
      interpolation_method = Raise e /\
    e = AssertionError "To be interpolated reps should have similar shape." /\
    ShapeMismatchError e.
Proof.
  intros Hne. eexists. split; [|split; [reflexivity | eexists; reflexivity]].
  unfold interpolate. rewrite bool_decide_eq_false_2 by done. done.
Qed.

Lemma interpolate_shape_mismatch_witness :
  @interpolate sample_externals _ 0 [[1%Q]] (NDArray [2] [[1%Q; 2%Q]])
    (NDArray [3] [[1%Q; 2%Q; 3%Q]]) 1 1%Q 1%Q 0%Q convex_interpolate =
  Raise (AssertionError "To be interpolated reps should have similar shape.").
Proof.
  destruct (@interpolate_shape_mismatch sample_externals _ 0 [[1%Q]]
              (NDArray [2] [[1%Q; 2%Q]]) (NDArray [3] [[1%Q; 2%Q; 3%Q]])
              1 1%Q 1%Q 0%Q convex_interpolate) as (e & Hcall & He & _);
    [discriminate |].
  rewrite Hcall, He. reflexivity.
Defined.

(** ** get_self_matching_matrix: random mode *)

Section PermutationMatrix.

Local Open Scope Q_scope.

(** A row of indicators over distinct indices sums to one when the index
    occurs and to zero when it does not. *)
Lemma Qsum_indicator_l (l : list nat) (i : nat) :
  NoDup l ->
  Qsum (map (fun j => if bool_decide (i = j) then 1 else 0) l) ==
  (if bool_decide (i ∈ l) then 1 else 0).
Proof.
  induction 1 as [|j l Hj Hnd IH]; [reflexivity |].
  cbn [map Qsum foldr]. fold (Qsum (map (fun j => if bool_decide (i = j) then 1 else 0) l)).
  rewrite IH. destruct (decide (i = j)) as [-> | Hne].
  - rewrite (bool_decide_eq_true_2 (j = j)) by done.
    rewrite (bool_decide_eq_false_2 (j ∈ l)) by done.
    rewrite bool_decide_eq_true_2 by left. reflexivity.
  - rewrite (bool_decide_eq_false_2 (i = j)) by done.
    rewrite (bool_decide_ext (i ∈ j :: l) (i ∈ l))
      by (rewrite elem_of_cons; intuition congruence).
    destruct (bool_decide (i ∈ l)); reflexivity.
Qed.

Lemma Qsum_indicator_r (l : list nat) (j : nat) :
  NoDup l ->
  Qsum (map (fun i => if bool_decide (i = j) then 1 else 0) l) ==
  (if bool_decide (j ∈ l) then 1 else 0).
Proof.
  intros Hnd. rewrite <- (Qsum_indicator_l l j Hnd).
  induction l as [|i l IH]; [reflexivity |].
  cbn [map Qsum foldr].
  fold (Qsum (map (fun i => if bool_decide (i = j) then 1 else 0) l)).
  fold (Qsum (map (fun i => if bool_decide (j = i) then 1 else 0) l)).
  apply NoDup_cons in Hnd as [_ Hnd]. rewrite (IH Hnd).
  repeat case_bool_decide; subst; done.
Qed.

Lemma eye_length (n : nat) : length (eye n) = n.
Proof. unfold eye. by rewrite length_map, length_seq. Qed.

Lemma eye_row (n i : nat) :
  (i < n)%nat ->
  nth i (eye n) [] = map (fun j => if bool_decide (i = j) then 1 else 0) (seq 0 n).
Proof.
  intros Hi. unfold eye.
  rewrite (nth_indep _ [] (map (fun j => if bool_decide (n = j) then 1 else 0) (seq 0 n)))
    by (by rewrite length_map, length_seq).
  rewrite (map_nth (fun i => map (fun j => if bool_decide (i = j) then 1 else 0) (seq 0 n))).
  by rewrite seq_nth.
Qed.

Lemma eye_entry (n i j : nat) :
  (i < n)%nat -> (j < n)%nat ->
  nth j (nth i (eye n) []) 0 = if bool_decide (i = j) then 1 else 0.
Proof.
  intros Hi Hj. rewrite eye_row by done.
  rewrite (nth_indep _ 0 (if bool_decide (i = n) then 1 else 0))
    by (by rewrite length_map, length_seq).
  rewrite (map_nth (fun j => if bool_decide (i = j) then 1 else 0)).
  by rewrite seq_nth.
Qed.

Lemma random_permutation_eye (n : nat) :
  random_permutation (seq 0 n) (eye n) = eye n.
Proof.
  unfold random_permutation. apply nth_ext with (d := []) (d' := []).
  - by rewrite length_map, length_seq, eye_length.
  - intros i Hi. rewrite length_map, length_seq in Hi.
    rewrite (nth_indep _ [] (nth n (eye n) []))
      by (by rewrite length_map, length_seq).
    rewrite (map_nth (fun i => nth i (eye n) [])). by rewrite seq_nth.
Qed.

End PermutationMatrix.

(** C3: in random mode, on a batch of [n] examples,
    [get_self_matching_matrix] returns an [n] by [n] matrix of zeros and
    ones, a reordering of the rows of the identity, in which every row and
    every column sums to one. *)
Theorem random_matching_is_permutation_matrix `{Externals} (ind : list nat)
    (b : batch) (reps inp : ndarray) (label_cost l2_cost : Q) :
  inputs b = Some inp ->
  ind ≡ₚ seq 0 (length (rows inp)) ->
  exists m,
    get_self_matching_matrix ind b reps "random" label_cost l2_cost = Ok m /\
    length m = length (rows inp) /\
    Forall (fun r => length r = length (rows inp)) m /\
    Forall (Forall (fun e => e = 0%Q \/ e = 1%Q)) m /\
    Forall (fun r => (Qsum r == 1)%Q) m /\
    (forall j, j < length (rows inp) -> (col_sum m j == 1)%Q) /\
    m ≡ₚ eye (length (rows inp)).
Proof.
  intros Hinp Hperm. set (n := length (rows inp)) in *.
  exists (random_permutation ind (eye n)).
  assert (Hin : forall i, i ∈ ind <-> i < n).
  { intros i. rewrite Hperm, list_elem_of_In, in_seq. lia. }
  assert (Hnd : NoDup ind).
  { rewrite Hperm. apply NoDup_ListNoDup, seq_NoDup. }
  split; [|split; [|split; [|split; [|split; [|split]]]]].
  - unfold get_self_matching_matrix. rewrite Hinp. done.
  - unfold random_permutation. rewrite length_map.
    rewrite (Permutation_length Hperm). apply length_seq.
  - unfold random_permutation. apply Forall_map, Forall_forall.
    intros i Hi%Hin. rewrite eye_row by done. by rewrite length_map, length_seq.
  - unfold random_permutation. apply Forall_map, Forall_forall.
    intros i Hi%Hin. rewrite eye_row by done. apply Forall_map, Forall_forall.
    intros j _. simpl. case_bool_decide; auto.
  - unfold random_permutation. apply Forall_map, Forall_forall.
    intros i Hi%Hin. simpl. rewrite eye_row by done.
    rewrite Qsum_indicator_l by apply NoDup_ListNoDup, seq_NoDup.
    rewrite bool_decide_eq_true_2; [reflexivity |].
    apply list_elem_of_In, in_seq. lia.
  - intros j Hj. unfold col_sum, random_permutation. rewrite map_map.
    rewrite (map_ext_in _ (fun i => if bool_decide (i = j) then 1%Q else 0%Q)).
    + rewrite Qsum_indicator_r by done.
      rewrite bool_decide_eq_true_2; [reflexivity | by apply Hin].
    + intros i Hi%list_elem_of_In%Hin. by apply eye_entry.
  - rewrite <- (random_permutation_eye n) at 2.
    unfold random_permutation. by apply Permutation_map.
Qed.

Lemma random_matching_is_permutation_matrix_witness :
  @get_self_matching_matrix sample_externals [2; 0; 1]
    (Batch (Some (NDArray [1] [[5%Q]; [6%Q]; [7%Q]])) None) (NDArray [] [])
    "random" 1%Q 1%Q =
  Ok [[0%Q; 0%Q; 1%Q]; [1%Q; 0%Q; 0%Q]; [0%Q; 1%Q; 0%Q]].
Proof.
  destruct (@random_matching_is_permutation_matrix sample_externals [2; 0; 1]
              (Batch (Some (NDArray [1] [[5%Q]; [6%Q]; [7%Q]])) None)
              (NDArray [] []) (NDArray [1] [[5%Q]; [6%Q]; [7%Q]]) 1%Q 1%Q)
    as (m & Hcall & _).
  - reflexivity.
  - simpl. apply (Permutation_cons_app [0; 1] []). reflexivity.
  - reflexivity.
Defined.

(** ** scheduler: linear decay *)

Lemma Qis_zero_false (q : Q) : ~ (q == 0)%Q -> Qis_zero q = false.
Proof.
  intros Hq. unfold Qis_zero. destruct (Qeq_bool q 0) eqn:Heq; [|done].
  by apply Qeq_bool_iff in Heq.
Qed.




(** The floor is taken of the quotient of floats: twenty segments over 22
    steps are 1.1 steps wide as a float, a little more than eleven tenths,
    so that step 11 is still in segment 9 and worth 10.0. *)
Lemma scheduler_linear_decay_rounds :
  Py.scheduler 11 (Py.decay_schedule 19 0 20 22) =
  Ok (Py.Array32 (Py.to_float32 (Py.Int 10))).
Proof. vm_compute. reflexivity. Qed.

(** The array returned is a binary32 float: an initial value of
    [2 ^ 24 + 1] comes back as [2 ^ 24]. *)
Lemma scheduler_linear_decay_float32 :
  Py.scheduler 0 (Py.decay_schedule 16777217 0 20 22) =
  Ok (Py.Array32 (Py.to_float32 (Py.Int 16777216))).
Proof. vm_compute. reflexivity. Qed.

(** ** get_self_matching_matrix: the sinkhorn cost *)

Section Matrices.

Lemma lookup_map {A B : Type} (f : A -> B) (l : list A) (i : nat) :
  map f l !! i = f <$> l !! i.
Proof. apply (list_lookup_fmap f l i). Qed.

Lemma map_const_repeat {A B : Type} (c : B) (l : list A) :
  map (fun _ => c) l = repeat c (length l).
Proof. induction l as [|a l IH]; simpl; congruence. Qed.

Lemma mshape_mmap (f : Q -> Q) (m : list (list Q)) : mshape (mmap f m) = mshape m.
Proof.
  unfold mshape, mmap. rewrite map_map. apply map_ext.
  intros r. apply length_map.
Qed.

Lemma mshape_eye (n : nat) : mshape (eye n) = repeat n n.
Proof.
  unfold mshape, eye. rewrite map_map.
  rewrite (map_ext _ (fun _ => n)) by (intros i; by rewrite length_map, length_seq).
  by rewrite map_const_repeat, length_seq.
Qed.

Lemma mshape_pairwise_l2 (x y : list (list Q)) :
  mshape (pairwise_l2 x y) = repeat (length y) (length x).
Proof.
  unfold mshape, pairwise_l2. rewrite map_map.
  rewrite (map_ext _ (fun _ => length y)) by (intros u; apply length_map).
  apply map_const_repeat.
Qed.

Lemma mshape_pairwise_equality_1d (x y : list Z) :
  mshape (pairwise_equality_1d x y) = repeat (length y) (length x).
Proof.
  unfold mshape, pairwise_equality_1d. rewrite map_map.
  rewrite (map_ext _ (fun _ => length y)) by (intros u; apply length_map).
  apply map_const_repeat.
Qed.

Lemma mshape_zip_with (f : Q -> Q -> Q) (m1 m2 : list (list Q)) :
  mshape m1 = mshape m2 ->
  mshape (zip_with (zip_with f) m1 m2) = mshape m1.
Proof.
  unfold mshape. revert m2.
  induction m1 as [|r1 m1 IH]; intros [|r2 m2] Hs; simplify_eq/=; [done |].
  rewrite length_zip_with. f_equal; [lia | by apply IH].
Qed.

Lemma mzip_ok (f : Q -> Q -> Q) (m1 m2 : list (list Q)) :
  mshape m1 = mshape m2 -> mzip f m1 m2 = Ok (zip_with (zip_with f) m1 m2).
Proof. intros Hs. unfold mzip. by rewrite bool_decide_eq_true_2. Qed.

Lemma entry_mmap (f : Q -> Q) (m : list (list Q)) (i j : nat) :
  entry (mmap f m) i j = f <$> entry m i j.
Proof.
  unfold entry, mmap. rewrite lookup_map.
  destruct (m !! i) as [r|]; simpl; [apply lookup_map | done].
Qed.

Lemma entry_zip_with (f : Q -> Q -> Q) (m1 m2 : list (list Q)) (i j : nat) :
  entry (zip_with (zip_with f) m1 m2) i j =
  a ← entry m1 i j; b ← entry m2 i j; Some (f a b).
Proof.
  unfold entry. rewrite lookup_zip_with.
  destruct (m1 !! i) as [r1|]; simpl; [|done].
  destruct (m2 !! i) as [r2|]; simpl.
  - apply lookup_zip_with.
  - by destruct (r1 !! j).
Qed.

Lemma entry_eye (n i j : nat) :
  i < n -> j < n ->
  entry (eye n) i j = Some (if bool_decide (i = j) then 1%Q else 0%Q).
Proof.
  intros Hi Hj. unfold entry, eye. rewrite lookup_map.
  rewrite lookup_seq_lt by done. simpl.
  rewrite lookup_map, lookup_seq_lt by done. done.
Qed.

Lemma entry_pairwise_l2 (x y : list (list Q)) (i j : nat) (u v : list Q) :
  x !! i = Some u -> y !! j = Some v ->
  entry (pairwise_l2 x y) i j = Some (sq_dist u v).
Proof.
  intros Hu Hv. unfold entry, pairwise_l2. rewrite lookup_map, Hu. simpl.
  by rewrite lookup_map, Hv.
Qed.

Lemma entry_pairwise_equality_1d (x y : list Z) (i j : nat) (a b : Z) :
  x !! i = Some a -> y !! j = Some b ->
  entry (pairwise_equality_1d x y) i j =
  Some (if bool_decide (a = b) then 1%Q else 0%Q).
Proof.
  intros Ha Hb. unfold entry, pairwise_equality_1d. rewrite lookup_map, Ha. simpl.
  by rewrite lookup_map, Hb.
Qed.

(** The entries of the distance matrix are the distances of the pairs. *)
Lemma elem_of_pairwise_l2 (x y : list (list Q)) (e : Q) :
  e ∈ concat (pairwise_l2 x y) <->
  exists i j u v, x !! i = Some u /\ y !! j = Some v /\ e = sq_dist u v.
Proof.
  rewrite list_elem_of_In, in_concat. unfold pairwise_l2. split.
  - intros (r & Hr & He). apply in_map_iff in Hr as (u & <- & Hu).
    apply in_map_iff in He as (v & <- & Hv).
    apply list_elem_of_In, list_elem_of_lookup in Hu as [i Hi].
    apply list_elem_of_In, list_elem_of_lookup in Hv as [j Hj].
    by exists i, j, u, v.
  - intros (i & j & u & v & Hi & Hj & ->).
    exists (map (sq_dist u) y). split; apply in_map_iff.
    + exists u. split; [done |]. apply list_elem_of_In. by eapply list_elem_of_lookup_2.
    + exists v. split; [done |]. apply list_elem_of_In. by eapply list_elem_of_lookup_2.
Qed.

Lemma maximum_cases (x y : Q) :
  (maximum x y = x \/ maximum x y = y) /\ (x <= maximum x y)%Q /\ (y <= maximum x y)%Q.
Proof.
  unfold maximum. destruct (Qle_bool x y) eqn:Hle.
  - apply Qle_bool_iff in Hle. split; [by right |]. split; [done | apply Qle_refl].
  - split; [by left |]. split; [apply Qle_refl |].
    apply Qlt_le_weak, Qnot_le_lt. intros Hle'%Qle_bool_iff. congruence.
Qed.

Lemma foldl_maximum_elem (l : list Q) (x : Q) : foldl maximum x l ∈ x :: l.
Proof.
  revert x. induction l as [|y l IH]; intros x; simpl; [by left |].
  specialize (IH (maximum x y)).
  destruct (maximum_cases x y) as ([Hm | Hm] & _); rewrite Hm in IH |- *.
  - apply elem_of_cons in IH as [-> | IH]; [by left | by do 2 right].
  - by right.
Qed.

Lemma foldl_maximum_upper (l : list Q) (x y : Q) :
  y ∈ x :: l -> (y <= foldl maximum x l)%Q.
Proof.
  revert x y. induction l as [|z l IH]; intros x y Hy; simpl.
  - apply elem_of_cons in Hy as [-> | Hy]; [apply Qle_refl | by apply elem_of_nil in Hy].
  - destruct (maximum_cases x z) as (_ & Hx & Hz).
    apply elem_of_cons in Hy as [-> | Hy].
    + eapply Qle_trans; [exact Hx |]. apply IH. by left.
    + apply elem_of_cons in Hy as [-> | Hy].
      * eapply Qle_trans; [exact Hz |]. apply IH. by left.
      * apply IH. by right.
Qed.

Lemma mmax_greatest (m : list (list Q)) :
  concat m <> [] ->
  exists top, mmax m = Ok top /\ top ∈ concat m /\
              forall e, e ∈ concat m -> (e <= top)%Q.
Proof.
  intros Hne. unfold mmax. destruct (concat m) as [|x l]; [done |].
  eexists. split; [reflexivity |]. split.
  - apply foldl_maximum_elem.
  - apply foldl_maximum_upper.
Qed.

End Matrices.

Lemma adjusted_cost_ok (x : list (list Q)) (labels : list Z) (label_cost l2_cost : Q) :
  x <> [] ->
  length labels = length x ->
  exists top,
    mmax (pairwise_l2 x x) = Ok top /\
    adjusted_cost x labels label_cost l2_cost =
    Ok (zip_with (zip_with Qplus)
          (mmap (fun e => ((1 - e) * label_cost)%Q) (pairwise_equality_1d labels labels))
          (mmap (fun e => (l2_cost * e)%Q)
             (zip_with (zip_with Qplus) (pairwise_l2 x x)
                (mmap (fun e => (e * top * 10)%Q) (eye (length x)))))).
Proof.
  intros Hne Hlen.
  destruct (mmax_greatest (pairwise_l2 x x)) as (top & Htop & _).
  { destruct x as [|u x']; [done |]. discriminate. }
  exists top. split; [done |].
  unfold adjusted_cost. rewrite Htop. run.
  rewrite mzip_ok by (by rewrite mshape_mmap, mshape_eye, mshape_pairwise_l2). run.
  apply mzip_ok.
  rewrite !mshape_mmap, mshape_zip_with
    by (by rewrite mshape_mmap, mshape_eye, mshape_pairwise_l2).
  by rewrite mshape_pairwise_equality_1d, mshape_pairwise_l2, Hlen.
Qed.

(** C5: in sinkhorn mode the solver receives the matrix whose entry for
    the pair [(i, j)] is [(1 - same_labels) * label_cost + l2_cost * C],
    with [same_labels] one when the two labels are equal and zero
    otherwise, and [C] the squared distance of the two representations
    plus, on the diagonal, ten times the largest squared distance of the
    batch. *)
Theorem sinkhorn_adjusted_cost `{Externals} (ind : list nat) (b : batch)
    (reps : ndarray) (labels : list Z) (label_cost l2_cost : Q) :
  rows reps <> [] ->
  label b = Some labels ->
  length labels = length (rows reps) ->
  exists cost top,
    get_self_matching_matrix ind b reps "sinkhorn" label_cost l2_cost =
      Ok (let '(_, matching, _) :=
            sinkhorn_dual_solver (repeat 1%Q (length (rows reps)))
              (repeat 1%Q (length (rows reps))) cost (1 # 10)%Q 100 in
          round_coupling matching (repeat 1%Q (length matching))
            (repeat 1%Q (length (hd [] matching)))) /\
    mshape cost = repeat (length (rows reps)) (length (rows reps)) /\
    (exists i j xi xj,
        rows reps !! i = Some xi /\ rows reps !! j = Some xj /\
        top = sq_dist xi xj) /\
    (forall i j xi xj,
        rows reps !! i = Some xi -> rows reps !! j = Some xj ->
        (sq_dist xi xj <= top)%Q) /\
    (forall i j xi xj li lj,
        rows reps !! i = Some xi -> rows reps !! j = Some xj ->
        labels !! i = Some li -> labels !! j = Some lj ->
        exists c,
          entry cost i j = Some c /\
          (c == label_aware_cost top label_cost l2_cost i j xi xj li lj)%Q).
Proof.
  intros Hne Hlabel Hlen.
  destruct (adjusted_cost_ok (rows reps) labels label_cost l2_cost Hne Hlen)
    as (top & Htop & Hcost).
  destruct (mmax_greatest (pairwise_l2 (rows reps) (rows reps)))
    as (top' & Htop' & Helem & Hupper).
  { destruct (rows reps) as [|u x']; [done | discriminate]. }
  rewrite Htop in Htop'. injection Htop' as <-.
  match type of Hcost with _ = Ok ?c => exists c, top end.
  split; [|split; [|split; [|split]]].
  - unfold get_self_matching_matrix.
    rewrite bool_decide_eq_false_2 by discriminate.
    rewrite bool_decide_eq_true_2 by done.
    unfold reshape_rows. destruct (rows reps) as [|u x'] eqn:Hrows; [done |].
    rewrite <- Hrows in *. run. rewrite Hlabel. run. rewrite Hcost. run.
    by destruct (sinkhorn_dual_solver _ _ _ _ _) as [[? ?] ?].
  - rewrite mshape_zip_with.
    + by rewrite mshape_mmap, mshape_pairwise_equality_1d, Hlen.
    + rewrite !mshape_mmap, mshape_zip_with
        by (by rewrite mshape_mmap, mshape_eye, mshape_pairwise_l2).
      by rewrite mshape_pairwise_equality_1d, mshape_pairwise_l2, Hlen.
  - apply elem_of_pairwise_l2 in Helem as (i & j & xi & xj & Hi & Hj & ->).
    by exists i, j, xi, xj.
  - intros i j xi xj Hi Hj. apply Hupper, elem_of_pairwise_l2. by exists i, j, xi, xj.
  - intros i j xi xj li lj Hi Hj Hli Hlj.
    rewrite entry_zip_with, !entry_mmap, entry_zip_with, entry_mmap.
    rewrite (entry_pairwise_equality_1d _ _ _ _ _ _ Hli Hlj).
    rewrite (entry_pairwise_l2 _ _ _ _ _ _ Hi Hj).
    rewrite entry_eye by (by eapply lookup_lt_Some). simpl.
    eexists. split; [reflexivity |]. unfold label_aware_cost.
    destruct (bool_decide (i = j)), (bool_decide (li = lj)); ring.
Qed.

Lemma sinkhorn_adjusted_cost_witness :
  @get_self_matching_matrix sample_externals []
    (Batch None (Some [1; 1; 2]%Z))
    (NDArray [2] [[0%Q; 0%Q]; [1%Q; 0%Q]; [0%Q; 2%Q]]) "sinkhorn" 1%Q 1%Q =
  Ok [[50%Q; 1%Q; 5%Q]; [1%Q; 50%Q; 6%Q]; [5%Q; 6%Q; 50%Q]].
Proof.
  destruct (@sinkhorn_adjusted_cost sample_externals []
              (Batch None (Some [1; 1; 2]%Z))
              (NDArray [2] [[0%Q; 0%Q]; [1%Q; 0%Q]; [0%Q; 2%Q]])
              [1; 1; 2]%Z 1%Q 1%Q) as (cost & top & Hcall & _).
  - discriminate.
  - reflexivity.
  - reflexivity.
  - reflexivity.
Defined.

(** ** interpolate: fixed and sampled coefficients *)

Section Interpolate.

Lemma einsum_ok (m : list (list Q)) (x : ndarray) :
  Forall (fun r => length r = length (rows x)) m ->
  einsum_ij_j m x =
  Ok (NDArray (inner_shape x)
        (map (fun mi => vsum (row_size x) (zip_with vscale mi (rows x))) m)).
Proof.
  intros Hm. unfold einsum_ij_j.
  replace (forallb _ m) with true; [done |].
  symmetry. apply forallb_forall. intros r Hr%list_elem_of_In.
  rewrite Forall_forall in Hm. apply Nat.eqb_eq. by apply Hm.
Qed.

Lemma mshape_fixed_lambdas (k n : nat) (lmbda : Q) :
  mshape (mmap (fun e => (e * lmbda)%Q) (ones k n)) = repeat n k.
Proof.
  rewrite mshape_mmap. unfold mshape, ones.
  induction k as [|k IH]; simpl; [done |]. by rewrite repeat_length, IH.
Qed.

Lemma fixed_lambdas_entries (k n : nat) (lmbda : Q) :
  Forall (Forall (fun e => (e == lmbda)%Q))
         (mmap (fun e => (e * lmbda)%Q) (ones k n)).
Proof.
  unfold mmap, ones. apply Forall_map, Forall_forall.
  intros r Hr%list_elem_of_In%repeat_spec. subst r.
  apply Forall_map, Forall_forall. intros e He%list_elem_of_In%repeat_spec.
  subst e. simpl. ring.
Qed.

Lemma Qeq_bool_false (x y : Q) : ~ (x == y)%Q -> Qeq_bool x y = false.
Proof.
  intros Hne. destruct (Qeq_bool x y) eqn:Heq; [|done].
  by apply Qeq_bool_iff in Heq.
Qed.

End Interpolate.

(** C10: [interpolate] takes the fixed coefficient exactly when [lmbda] is
    not -1.  For every other [lmbda], inside [0, 1] or not, each
    coefficient it returns equals [lmbda] and the result is the same
    whatever the Beta sampler is; for [lmbda = -1] the coefficients are the
    ones the sampler draws. *)
Theorem interpolate_fixed_iff_not_minus_one `{E : Externals} {T : Type}
    (key : PRNGKey) (matching_matrix : list (list Q)) (reps1 reps2 : ndarray)
    (num_lambdas : nat) (alpha beta lmbda : Q)
    (interpolation_method : ndarray -> ndarray -> list (list Q) -> result T) :
  shape reps1 = shape reps2 ->
  Forall (fun r => length r = length (rows reps2)) matching_matrix ->
  exists target,
    einsum_ij_j matching_matrix reps2 = Ok target /\
    (~ (lmbda == -1)%Q ->
     exists lambdas,
       mshape lambdas = repeat (length (rows reps1)) num_lambdas /\
       Forall (Forall (fun e => (e == lmbda)%Q)) lambdas /\
       forall sampler,
         @interpolate (with_random_beta E sampler) T key matching_matrix reps1 reps2
           num_lambdas alpha beta lmbda interpolation_method =
         (new_reps ← interpolation_method reps1 target lambdas;
          Ok (new_reps, lambdas))) /\
    ((lmbda == -1)%Q ->
     forall sampler,
       @interpolate (with_random_beta E sampler) T key matching_matrix reps1 reps2
         num_lambdas alpha beta lmbda interpolation_method =
       (new_reps ← interpolation_method reps1 target
                     (sampler key alpha beta num_lambdas (length (rows reps1)));
        Ok (new_reps, sampler key alpha beta num_lambdas (length (rows reps1))))).
Proof.
  intros Hshape Hm. eexists. split; [by apply einsum_ok |]. split.
  - intros Hne.
    exists (mmap (fun e => (e * lmbda)%Q) (ones num_lambdas (length (rows reps1)))).
    split; [apply mshape_fixed_lambdas |]. split; [apply fixed_lambdas_entries |].
    intros sampler. unfold interpolate.
    rewrite bool_decide_eq_true_2 by done. run.
    rewrite einsum_ok by done. run.
    by rewrite Qeq_bool_false.
  - intros Heq sampler. unfold interpolate.
    rewrite bool_decide_eq_true_2 by done. run.
    rewrite einsum_ok by done. run.
    apply Qeq_bool_iff in Heq. by rewrite Heq.
Qed.

Lemma interpolate_fixed_iff_not_minus_one_witness :
  exists lambdas,
    @interpolate sample_externals unit 0 [[0%Q; 1%Q]; [1%Q; 0%Q]]
      (NDArray [2] [[1%Q; 2%Q]; [3%Q; 4%Q]]) (NDArray [2] [[5%Q; 6%Q]; [7%Q; 8%Q]])
      1 1%Q 1%Q 2%Q (fun _ _ _ => Ok tt) = Ok (tt, lambdas) /\
    Forall (Forall (fun e => (e == 2)%Q)) lambdas.
Proof.
  destruct (@interpolate_fixed_iff_not_minus_one sample_externals unit 0
              [[0%Q; 1%Q]; [1%Q; 0%Q]]
              (NDArray [2] [[1%Q; 2%Q]; [3%Q; 4%Q]])
              (NDArray [2] [[5%Q; 6%Q]; [7%Q; 8%Q]])
              1 1%Q 1%Q 2%Q (fun _ _ _ => Ok tt))
    as (target & _ & Hfixed & _).
  - reflexivity.
  - repeat constructor.
  - destruct Hfixed as (lambdas & _ & Hentries & Hcall); [discriminate |].
    exists lambdas. split; [|exact Hentries].
    exact (Hcall (@random_beta sample_externals)).
Defined.

(** ** interpolate: the coefficient zero *)

Section ConvexInterpolate.

Lemma convex_row_zero (l : Q) (u v : list Q) :
  (l == 0)%Q -> length u = length v -> Forall2 Qeq (convex_row l u v) u.
Proof.
  intros Hl. revert v. unfold convex_row.
  induction u as [|a u IH]; intros [|b v] Hlen; simplify_eq/=; constructor.
  - rewrite Hl. ring.
  - by apply IH.
Qed.

Lemma convex_rows_zero (lam : list Q) (xs ys : list (list Q)) :
  length lam = length xs ->
  Forall (fun l => (l == 0)%Q) lam ->
  Forall2 (fun u v => length u = length v) xs ys ->
  Forall2 (Forall2 Qeq)
    (zip_with (fun l uv => convex_row l uv.1 uv.2) lam (zip xs ys)) xs.
Proof.
  intros Hlen Hlam Hxy. revert lam Hlen Hlam.
  induction Hxy as [|u v xs ys Huv Hxy IH]; intros [|l lam] Hlen Hlam;
    simplify_eq/=; constructor.
  - apply Forall_cons in Hlam as [Hl _]. by apply convex_row_zero.
  - apply Forall_cons in Hlam as [_ Hlam]. by apply IH.
Qed.

Lemma length_vsum (w : nat) (vs : list (list Q)) :
  Forall (fun v => length v = w) vs -> length (vsum w vs) = w.
Proof.
  unfold vsum, vadd. induction 1 as [|v vs Hv _ IH]; simpl.
  - apply repeat_length.
  - rewrite length_zip_with, IH, Hv. lia.
Qed.

Lemma einsum_row_width (w : nat) (mi : list Q) (xs : list (list Q)) :
  Forall (fun r => length r = w) xs ->
  length (vsum w (zip_with vscale mi xs)) = w.
Proof.
  intros Hxs. apply length_vsum. revert mi.
  induction Hxs as [|r xs Hr _ IH]; intros [|c mi]; simpl; try constructor.
  - unfold vscale. by rewrite length_map.
  - apply IH.
Qed.

Lemma same_width (w : nat) (xs ys : list (list Q)) :
  length xs = length ys ->
  Forall (fun r => length r = w) xs ->
  Forall (fun r => length r = w) ys ->
  Forall2 (fun u v => length u = length v) xs ys.
Proof.
  intros Hlen Hxs. revert ys Hlen.
  induction Hxs as [|u xs Hu _ IH]; intros [|v ys] Hlen Hys; simplify_eq/=;
    constructor.
  - apply Forall_cons in Hys as [Hv _]. congruence.
  - apply Forall_cons in Hys as [_ Hys]. by apply IH.
Qed.

End ConvexInterpolate.

Lemma mshape_repeat (m : list (list Q)) (w h : nat) :
  mshape m = repeat w h -> length m = h /\ Forall (fun r => length r = w) m.
Proof.
  unfold mshape. revert h.
  induction m as [|r m IH]; intros [|h] Hs; simplify_eq/=; [done |].
  destruct (IH h) as [Hlen Hall]; [done |]. split; [by f_equal | by constructor].
Qed.

Lemma convex_interpolate_ok (x y : ndarray) (lmbda : list (list Q)) :
  shape x = shape y ->
  Forall (fun l => length l = length (rows x)) lmbda ->
  convex_interpolate x y lmbda =
  Ok (map (fun lam =>
             NDArray (inner_shape x)
               (zip_with (fun l uv => convex_row l uv.1 uv.2) lam
                  (zip (rows x) (rows y))))
          lmbda).
Proof.
  intros Hshape Hl. unfold convex_interpolate.
  rewrite bool_decide_eq_true_2 by done.
  replace (forallb _ lmbda) with true; [done |].
  symmetry. apply forallb_forall. intros l Hin%list_elem_of_In.
  rewrite Forall_forall in Hl. apply Nat.eqb_eq. by apply Hl.
Qed.

(** C6: with the coefficient fixed at 0 and representations of one shape,
    [interpolate] returns coefficients that are all 0, the same whatever
    the Beta sampler is, and a mixed tensor each of whose slices, one per
    coefficient row, equals [reps1].  The arrays are well formed and the
    matching matrix is square, one row and one column per example. *)
Theorem interpolate_fixed_zero `{E : Externals} (key : PRNGKey)
    (matching_matrix : list (list Q)) (reps1 reps2 : ndarray) (num_lambdas : nat)
    (alpha beta : Q) :
  shape reps1 = shape reps2 ->
  wf_ndarray reps1 ->
  wf_ndarray reps2 ->
  mshape matching_matrix = repeat (length (rows reps1)) (length (rows reps1)) ->
  exists mixed lambdas,
    interpolate key matching_matrix reps1 reps2 num_lambdas alpha beta 0%Q
      convex_interpolate = Ok (mixed, lambdas) /\
    (forall sampler,
        @interpolate (with_random_beta E sampler) _ key matching_matrix reps1 reps2
          num_lambdas alpha beta 0%Q convex_interpolate = Ok (mixed, lambdas)) /\
    mshape lambdas = repeat (length (rows reps1)) num_lambdas /\
    Forall (Forall (fun e => (e == 0)%Q)) lambdas /\
    length mixed = num_lambdas /\
    Forall (fun m => shape m = shape reps1 /\
                     Forall2 (Forall2 Qeq) (rows m) (rows reps1)) mixed.
Proof.
  intros Hshape Hwf1 Hwf2 Hm.
  assert (Hn2 : length (rows reps2) = length (rows reps1))
    by (by injection Hshape).
  assert (Hinner : inner_shape reps2 = inner_shape reps1)
    by (by injection Hshape).
  set (n := length (rows reps1)) in *.
  apply mshape_repeat in Hm as [Hrows Hcols].
  set (lambdas := mmap (fun e => (e * 0)%Q) (ones num_lambdas n)).
  set (target := NDArray (inner_shape reps2)
         (map (fun mi => vsum (row_size reps2) (zip_with vscale mi (rows reps2)))
              matching_matrix)).
  assert (Hlam_shape : mshape lambdas = repeat n num_lambdas)
    by apply mshape_fixed_lambdas.
  assert (Hlam_zero : Forall (Forall (fun e => (e == 0)%Q)) lambdas)
    by apply fixed_lambdas_entries.
  assert (Hlam_len : Forall (fun l => length l = n) lambdas)
    by (by apply mshape_repeat in Hlam_shape as [_ ?]).
  assert (Htarget : shape reps1 = shape target).
  { unfold shape, target. simpl. rewrite length_map. fold n. congruence. }
  assert (Hrun : forall sampler,
             @interpolate (with_random_beta E sampler) _ key matching_matrix
               reps1 reps2 num_lambdas alpha beta 0%Q convex_interpolate =
             Ok (map (fun lam =>
                        NDArray (inner_shape reps1)
                          (zip_with (fun l uv => convex_row l uv.1 uv.2) lam
                             (zip (rows reps1) (rows target))))
                     lambdas, lambdas)).
  { intros sampler. unfold interpolate.
    rewrite bool_decide_eq_true_2 by done. run.
    rewrite einsum_ok by (by rewrite Hn2). run.
    fold n. fold lambdas. fold target.
    by rewrite convex_interpolate_ok. }
  eexists _, lambdas.
  split; [exact (Hrun (@random_beta E)) |]. split; [exact Hrun |].
  split; [done |]. split; [done |]. split.
  - rewrite length_map. by apply mshape_repeat in Hlam_shape as [? _].
  - apply Forall_map, Forall_forall. intros lam Hlam.
    rewrite Forall_forall in Hlam_zero, Hlam_len.
    specialize (Hlam_zero lam Hlam). specialize (Hlam_len lam Hlam).
    assert (Hwidth : Forall2 (fun u v => length u = length v)
                       (rows reps1) (rows target)).
    { apply (same_width (row_size reps1)).
      - unfold target. simpl. rewrite length_map. by fold n.
      - exact Hwf1.
      - unfold target. simpl. apply Forall_map, Forall_forall. intros mi _.
        simpl. unfold row_size at 2. rewrite <- Hinner. fold (row_size reps2).
        by apply einsum_row_width. }
    split.
    + unfold shape. simpl. f_equal.
      rewrite length_zip_with, length_zip, Hlam_len, length_map, Hrows.
      fold n. lia.
    + simpl. by apply convex_rows_zero.
Qed.

Lemma interpolate_fixed_zero_witness :
  exists mixed lambdas,
    @interpolate sample_externals _ 0 [[0%Q; 1%Q]; [1%Q; 0%Q]]
      (NDArray [2] [[1%Q; 2%Q]; [3%Q; 4%Q]]) (NDArray [2] [[5%Q; 6%Q]; [7%Q; 8%Q]])
      3 1%Q 1%Q 0%Q convex_interpolate = Ok (mixed, lambdas) /\
    Forall (Forall (fun e => (e == 0)%Q)) lambdas /\
    length mixed = 3 /\
    Forall (fun m => Forall2 (Forall2 Qeq) (rows m) [[1%Q; 2%Q]; [3%Q; 4%Q]]) mixed.
Proof.
  destruct (@interpolate_fixed_zero sample_externals 0 [[0%Q; 1%Q]; [1%Q; 0%Q]]
              (NDArray [2] [[1%Q; 2%Q]; [3%Q; 4%Q]])
              (NDArray [2] [[5%Q; 6%Q]; [7%Q; 8%Q]]) 3 1%Q 1%Q)
    as (mixed & lambdas & Hcall & _ & _ & Hzero & Hlen & Hmixed).
  - reflexivity.
  - repeat constructor.
  - repeat constructor.
  - reflexivity.
  - exists mixed, lambdas. split; [exact Hcall |]. split; [exact Hzero |].
    split; [exact Hlen |].
    eapply Forall_impl; [exact Hmixed |]. intros m [_ Hm]. exact Hm.
Defined.

(** * Further properties of the file *)

(** ** scheduler: the linear schedules *)

Section LinearSchedules.

Local Open Scope Q_scope.

Lemma step_size_nonzero (ts ns : Q) : 0 < ts -> 1 <= ns -> ~ ts / ns == 0.
Proof.
  intros Hts Hns Hz. assert (Hts' : ts == ts / ns * ns) by (field; lra).
  rewrite Hz in Hts'. lra.
Qed.

Lemma Qgtb_one_nonzero (ns : Q) : Qgtb ns 1 = true -> ~ ns - 1 == 0.
Proof.
  unfold Qgtb. intros Hgt%negb_true_iff Hz.
  assert (Hle : ns <= 1) by lra. apply Qle_bool_iff in Hle. congruence.
Qed.

Lemma scheduler_decay_run (step : Z) (params : gmap string value)
    (iv mv ts ns : Q) :
  params !! "mode" = Some (VStr "linear_decay") ->
  params !! "initial_value" = Some (VNum iv) ->
  params !! "min_value" = Some (VNum mv) ->
  params !! "total_steps" = Some (VNum ts) ->
  dict_get params "num_steps" (VNum 1) = VNum ns ->
  0 < ts -> 1 <= ns ->
  scheduler step params =
  Ok (VNum (maximum mv (iv - segment_of step ts ns * change_per_segment (iv - mv) ns))).
Proof.
  intros Hmode Hinit Hmin Htotal Hnum Hts Hns.
  assert (Hnz : ~ ns == 0) by lra.
  pose proof (step_size_nonzero ts ns Hts Hns) as Hsz.
  unfold scheduler, getitem. rewrite Hnum. unfold dict_get.
  rewrite Hmode, Htotal, Hinit, Hmin.
  unfold mbind, result_bind. cbn [eq_str num is_not_none].
  rewrite !bool_decide_eq_false_2 by discriminate.
  rewrite bool_decide_eq_true_2 by done.
  unfold truediv at 1. rewrite (Qis_zero_false ns) by done.
  unfold floordiv. rewrite (Qis_zero_false _ Hsz).
  unfold change_per_segment, segment_of.
  destruct (Qgtb ns 1) eqn:Hgt; [|done].
  unfold truediv. by rewrite (Qis_zero_false _ (Qgtb_one_nonzero ns Hgt)).
Qed.

Lemma scheduler_grow_run (step : Z) (params : gmap string value)
    (iv mx ts ns : Q) :
  params !! "mode" = Some (VStr "linear_grow") ->
  params !! "initial_value" = Some (VNum iv) ->
  params !! "max_value" = Some (VNum mx) ->
  params !! "total_steps" = Some (VNum ts) ->
  dict_get params "num_steps" (VNum 1) = VNum ns ->
  0 < ts -> 1 <= ns ->
  scheduler step params =
  Ok (VNum (minimum mx (segment_of step ts ns * change_per_segment (mx - iv) ns))).
Proof.
  intros Hmode Hinit Hmax Htotal Hnum Hts Hns.
  assert (Hnz : ~ ns == 0) by lra.
  pose proof (step_size_nonzero ts ns Hts Hns) as Hsz.
  unfold scheduler, getitem. rewrite Hnum. unfold dict_get.
  rewrite Hmode, Htotal, Hinit, Hmax.
  unfold mbind, result_bind. cbn [eq_str num is_not_none].
  rewrite !bool_decide_eq_false_2 by discriminate.
  rewrite bool_decide_eq_true_2 by done.
  unfold truediv at 1. rewrite (Qis_zero_false ns) by done.
  unfold floordiv. rewrite (Qis_zero_false _ Hsz).
  unfold change_per_segment, segment_of.
  destruct (Qgtb ns 1) eqn:Hgt; [|done].
  unfold truediv. by rewrite (Qis_zero_false _ (Qgtb_one_nonzero ns Hgt)).
Qed.

Lemma change_per_segment_nonneg (span ns : Q) :
  0 <= span -> 1 <= ns -> 0 <= change_per_segment span ns.
Proof.
  intros Hspan Hns. unfold change_per_segment, Qgtb.
  destruct (Qle_bool ns 1) eqn:Hle; simpl; [lra |].
  assert (Hgt : 1 < ns).
  { apply Qnot_le_lt. intros Hle'%Qle_bool_iff. congruence. }
  apply Qle_shift_div_l; lra.
Qed.


Lemma step_size_pos (ts ns : Q) : 0 < ts -> 1 <= ns -> 0 < ts / ns.
Proof. intros Hts Hns. apply Qlt_shift_div_l; lra. Qed.

Lemma segment_of_mono (step1 step2 : Z) (ts ns : Q) :
  0 < ts -> 1 <= ns -> (step1 <= step2)%Z ->
  segment_of step1 ts ns <= segment_of step2 ts ns.
Proof.
  intros Hts Hns Hle. unfold segment_of.
  rewrite <- Zle_Qle. apply Qfloor_resp_le.
  pose proof (step_size_pos ts ns Hts Hns) as Hpos.
  apply Qle_shift_div_l; [done |].
  assert (Heq : inject_Z step1 / (ts / ns) * (ts / ns) == inject_Z step1)
    by (field; split; lra).
  rewrite Heq. by rewrite <- Zle_Qle.
Qed.


Lemma segment_of_first (step : Z) (ts ns : Q) :
  0 < ts -> 1 <= ns -> (0 <= step)%Z -> inject_Z step < ts / ns ->
  segment_of step ts ns == 0.
Proof.
  intros Hts Hns Hstep Hlt. unfold segment_of.
  pose proof (step_size_pos ts ns Hts Hns) as Hpos.
  assert (Hlo : 0 <= inject_Z step / (ts / ns)).
  { apply Qle_shift_div_l; [done |]. rewrite Qmult_0_l.
    by rewrite (Zle_Qle 0 step) in Hstep. }
  assert (Hhi : inject_Z step / (ts / ns) < 1).
  { apply Qlt_shift_div_r; lra. }
  assert (Hfl : Qfloor (inject_Z step / (ts / ns)) = 0%Z).
  { pose proof (Qfloor_le (inject_Z step / (ts / ns))) as H1.
    pose proof (Qlt_floor (inject_Z step / (ts / ns))) as H2.
    pose proof (Qle_lt_trans _ _ _ H1 Hhi) as H3.
    pose proof (Qle_lt_trans _ _ _ Hlo H2) as H4.
    change 1 with (inject_Z 1) in H3. change 0 with (inject_Z 0) in H4.
    rewrite <- Zlt_Qlt in H3, H4. lia. }
  by rewrite Hfl.
Qed.


Lemma maximum_le_iff (x y z : Q) : x <= z -> y <= z -> maximum x y <= z.
Proof. intros. unfold maximum. by destruct (Qle_bool x y). Qed.


End LinearSchedules.

Ltac closed_fact := first [reflexivity | discriminate | lia].



(** X2: a decaying schedule never rises: under the same conditions a later
    step gets a value that is not larger than the value of an earlier
    one. *)
Theorem linear_decay_non_increasing (step1 step2 : Z) (params : gmap string value)
    (iv mv ts ns : Q) :
  params !! "mode" = Some (VStr "linear_decay") ->
  params !! "initial_value" = Some (VNum iv) ->
  params !! "min_value" = Some (VNum mv) ->
  params !! "total_steps" = Some (VNum ts) ->
  dict_get params "num_steps" (VNum 1%Q) = VNum ns ->
  (0 < ts)%Q -> (1 <= ns)%Q -> (mv <= iv)%Q -> (step1 <= step2)%Z ->
  exists v1 v2,
    scheduler step1 params = Ok (VNum v1) /\
    scheduler step2 params = Ok (VNum v2) /\
    (v2 <= v1)%Q.
Proof.
  intros Hmode Hinit Hmin Htotal Hnum Hts Hns Hle Hstep.
  rewrite !(scheduler_decay_run _ params iv mv ts ns) by done.
  eexists _, _. split; [reflexivity |]. split; [reflexivity |].
  pose proof (segment_of_mono step1 step2 ts ns Hts Hns Hstep) as Hseg.
  assert (Hch : (0 <= change_per_segment (iv - mv) ns)%Q)
    by (apply change_per_segment_nonneg; [lra | done]).
  pose proof (Qmult_le_compat_r _ _ _ Hseg Hch) as Hprod.
  destruct (maximum_cases mv (iv - segment_of step1 ts ns *
                                   change_per_segment (iv - mv) ns)%Q)
    as (_ & Hfloor & Hval).
  apply maximum_le_iff; [done |]. lra.
Qed.

Lemma linear_decay_non_increasing_witness :
  exists v1 v2,
    scheduler 3 decay_example = Ok (VNum v1) /\
    scheduler 8 decay_example = Ok (VNum v2) /\
    (v2 <= v1)%Q.
Proof.
  apply (linear_decay_non_increasing 3 8 decay_example 10%Q 0%Q 10%Q 5%Q);
    closed_fact.
Defined.





(** X5: a decaying schedule of more than one segment cannot do without
    [min_value]: the decrement reads it before the check for [None], and
    the call raises [KeyError]. *)
Theorem linear_decay_requires_min_value (step : Z) (params : gmap string value)
    (v0 : value) (ts ns : Q) :
  params !! "mode" = Some (VStr "linear_decay") ->
  params !! "initial_value" = Some v0 ->
  params !! "min_value" = None ->
  params !! "total_steps" = Some (VNum ts) ->
  dict_get params "num_steps" (VNum 1%Q) = VNum ns ->
  (1 < ns)%Q ->
  scheduler step params = Raise (KeyError "min_value").
Proof.
  intros Hmode Hinit Hmin Htotal Hnum Hns.
  assert (Hnz : ~ (ns == 0)%Q) by lra.
  assert (Hgt : Qgtb ns 1 = true).
  { unfold Qgtb. apply negb_true_iff. destruct (Qle_bool ns 1) eqn:Hle; [|done].
    apply Qle_bool_iff in Hle. lra. }
  unfold scheduler, getitem. rewrite Hnum. unfold dict_get.
  rewrite Hmode, Htotal, Hinit, Hmin.
  unfold mbind, result_bind. cbn [eq_str num is_not_none].
  rewrite !bool_decide_eq_false_2 by discriminate.
  rewrite bool_decide_eq_true_2 by done.
  unfold truediv at 1. rewrite (Qis_zero_false ns) by done.
  by rewrite Hgt.
Qed.

Lemma linear_decay_requires_min_value_witness :
  scheduler 3 (delete "min_value" decay_example) = Raise (KeyError "min_value").
Proof.
  apply (linear_decay_requires_min_value 3 _ (VNum 10%Q) 10%Q 5%Q); closed_fact.
Defined.

(** X6: a linear schedule of zero segments divides by zero: in both linear
    modes, when [total_steps] is a number, [num_steps = 0] makes
    [scheduler] raise [ZeroDivisionError], whether the fields read after
    the division are there or not. *)
Theorem linear_schedule_zero_segments (step : Z) (params : gmap string value)
    (mode : string) (ts ns : Q) :
  mode = "linear_decay" \/ mode = "linear_grow" ->
  params !! "mode" = Some (VStr mode) ->
  params !! "total_steps" = Some (VNum ts) ->
  dict_get params "num_steps" (VNum 1%Q) = VNum ns ->
  (ns == 0)%Q ->
  scheduler step params = Raise ZeroDivisionError.
Proof.
  intros Hm Hmode Htotal Hnum Hns.
  assert (Hz : Qis_zero ns = true) by (by apply Qeq_bool_iff).
  unfold scheduler, getitem. rewrite Hnum. unfold dict_get.
  rewrite Hmode, Htotal.
  unfold mbind, result_bind. cbn [eq_str num].
  destruct Hm as [-> | ->].
  - rewrite !bool_decide_eq_false_2 by discriminate.
    rewrite bool_decide_eq_true_2 by done.
    unfold truediv at 1. by rewrite Hz.
  - rewrite !bool_decide_eq_false_2 by discriminate.
    rewrite bool_decide_eq_true_2 by done.
    unfold truediv at 1. by rewrite Hz.
Qed.

Lemma linear_schedule_zero_segments_witness :
  scheduler 3 (<["num_steps" := VNum 0%Q]> grow_example) = Raise ZeroDivisionError.
Proof.
  apply (linear_schedule_zero_segments 3 _ "linear_grow" 10%Q 0%Q);
    first [by right | closed_fact].
Defined.

(** X7: a growing schedule starts from zero, not from its initial value:
    during the first segment [scheduler] returns 0 in [linear_grow] mode,
    whatever [initial_value] is, when [max_value] is not negative. *)
Theorem linear_grow_starts_at_zero (step : Z) (params : gmap string value)
    (iv mx ts ns : Q) :
  params !! "mode" = Some (VStr "linear_grow") ->
  params !! "initial_value" = Some (VNum iv) ->
  params !! "max_value" = Some (VNum mx) ->
  params !! "total_steps" = Some (VNum ts) ->
  dict_get params "num_steps" (VNum 1%Q) = VNum ns ->
  (0 < ts)%Q -> (1 <= ns)%Q -> (0 <= mx)%Q ->
  (0 <= step)%Z -> (inject_Z step < ts / ns)%Q ->
  exists v, scheduler step params = Ok (VNum v) /\ (v == 0)%Q.
Proof.
  intros Hmode Hinit Hmax Htotal Hnum Hts Hns Hmx Hstep Hfirst.
  rewrite (scheduler_grow_run step params iv mx ts ns) by done.
  eexists. split; [reflexivity |].
  pose proof (segment_of_first step ts ns Hts Hns Hstep Hfirst) as Hseg.
  assert (Hval : (segment_of step ts ns * change_per_segment (mx - iv) ns == 0)%Q)
    by (rewrite Hseg; ring).
  unfold minimum. destruct (Qle_bool mx _) eqn:Hle; [|done].
  apply Qle_bool_iff in Hle. lra.
Qed.

Lemma linear_grow_starts_at_zero_witness :
  exists v, scheduler 1 grow_example = Ok (VNum v) /\ (v == 0)%Q.
Proof.
  apply (linear_grow_starts_at_zero 1 grow_example 4%Q 8%Q 10%Q 5%Q); closed_fact.
Defined.



(** ** get_weight_param with scheduler *)

(** X9: a weight without a [_params] entry is constant: [scheduler] on the
    dict [get_weight_param] builds returns, at every step, the value stored
    under the weight's name, or the default when there is none. *)
Theorem scheduler_of_default_weight_param (step : Z) (hp : weight_hparams)
    (param_name : string) (default_value : value) :
  schedules hp !! (param_name +:+ "_params") = None ->
  scheduler step (get_weight_param hp param_name default_value) =
  Ok (default default_value (scalars hp !! param_name)).
Proof.
  intros Hnone. unfold get_weight_param. rewrite Hnone. simpl.
  set (v := default default_value (scalars hp !! param_name)).
  set (m := <["initial_value" := v]> (<["mode" := VStr "constant"]> ∅)).
  assert (Hmode : m !! "mode" = Some (VStr "constant")).
  { unfold m. rewrite lookup_insert_ne by done. apply lookup_insert_eq. }
  assert (Hinit : m !! "initial_value" = Some v) by apply lookup_insert_eq.
  unfold scheduler, getitem. rewrite Hmode, Hinit.
  unfold mbind, result_bind. cbn [eq_str].
  by rewrite bool_decide_eq_true_2.
Qed.

Lemma scheduler_of_default_weight_param_witness :
  scheduler 42
    (get_weight_param (WeightHParams {["mixup_weight" := VNum (1 # 2)%Q]} ∅)
       "mixup_weight" (VNum 1%Q)) = Ok (VNum (1 # 2)%Q).
Proof.
  rewrite (scheduler_of_default_weight_param 42
             (WeightHParams {["mixup_weight" := VNum (1 # 2)%Q]} ∅)
             "mixup_weight" (VNum 1%Q)) by reflexivity.
  reflexivity.
Defined.

(** ** sample_layer and get_sample_layer_params *)

Lemma elem_of_arange (lo hi i : Z) : i ∈ arange lo hi <-> (lo <= i < hi)%Z.
Proof.
  unfold arange. rewrite list_elem_of_In, in_map_iff. split.
  - intros (k & <- & Hk%in_seq). lia.
  - intros Hi. exists (Z.to_nat (i - lo)). split; [lia |]. apply in_seq. lia.
Qed.

Lemma random_choice_elem (draw : nat) (a : list Z) :
  a <> [] -> exists x, random_choice draw a = Ok x /\ x ∈ a.
Proof.
  intros Hne. destruct a as [|x0 a]; [done |].
  eexists. split; [reflexivity |].
  apply list_elem_of_In, nth_In, Nat.mod_upper_bound. discriminate.
Qed.

Lemma list_getitem_in_range {A : Type} (l : list A) (i : Z) :
  (0 <= i < Z.of_nat (length l))%Z ->
  exists x, l !! Z.to_nat i = Some x /\ list_getitem l i = Ok x.
Proof.
  intros Hi. destruct (lookup_lt_is_Some_2 l (Z.to_nat i)) as [x Hx]; [lia |].
  exists x. split; [done |]. unfold list_getitem.
  replace (i <? 0)%Z with false by lia.
  replace ((0 <=? i)%Z && (i <? Z.of_nat (length l))%Z)%bool with true by lia.
  by rewrite Hx.
Qed.

(** A draw from indices that are all in range is the key at one of them. *)
Lemma sample_from_indices (draw : nat) (layer_keys : list string) (layers : list Z) :
  layers <> [] ->
  Forall (fun i => (0 <= i < Z.of_nat (length layer_keys))%Z) layers ->
  exists i key,
    i ∈ layers /\ layer_keys !! Z.to_nat i = Some key /\
    (random_choice draw layers ≫= list_getitem layer_keys) = Ok key.
Proof.
  intros Hne Hall. destruct (random_choice_elem draw layers Hne) as (i & Hdraw & Hi).
  rewrite Forall_forall in Hall.
  destruct (list_getitem_in_range layer_keys i (Hall i Hi)) as (key & Hkey & Hget).
  exists i, key. split; [done |]. split; [done |]. by rewrite Hdraw.
Qed.

(** X10: [sample_layer] returns a layer for a range only when the range is
    given backwards: if [max(hi, 0) < min(lo, len(layer_keys))] for the
    range [(lo, hi)], the call returns the key at an index between these
    two bounds. *)
Theorem sample_layer_reversed_range (draw : nat) (layer_keys : list string)
    (lo hi : Z) :
  (Z.max hi 0 < Z.min lo (Z.of_nat (length layer_keys)))%Z ->
  exists i key,
    (Z.max hi 0 <= i < Z.min lo (Z.of_nat (length layer_keys)))%Z /\
    layer_keys !! Z.to_nat i = Some key /\
    sample_layer draw layer_keys (Some (lo, hi)) None = Ok key.
Proof.
  intros Hlt.
  set (a := Z.max hi 0) in *. set (b := Z.min lo (Z.of_nat (length layer_keys))) in *.
  destruct (sample_from_indices draw layer_keys (arange a b))
    as (i & key & Hi & Hkey & Hrun).
  - intros Hnil. assert (Ha : a ∈ arange a b) by (apply elem_of_arange; lia).
    rewrite Hnil in Ha. by apply elem_of_nil in Ha.
  - apply Forall_forall. intros i Hi%elem_of_arange. lia.
  - exists i, key. split; [by apply elem_of_arange |]. split; [done |].
    unfold sample_layer. simpl. fold a. fold b. exact Hrun.
Qed.

Lemma sample_layer_reversed_range_witness :
  exists i key,
    (0 <= i < 2)%Z /\ ["l1"; "l2"; "l3"] !! Z.to_nat i = Some key /\
    sample_layer 5 ["l1"; "l2"; "l3"] (Some (2, 0)%Z) None = Ok key.
Proof.
  apply (sample_layer_reversed_range 5 ["l1"; "l2"; "l3"] 2 0). reflexivity.
Defined.

(** X11: with an explicit list of indices, not empty and all within the
    layer keys, [sample_layer] returns the key at one of the listed
    indices. *)
Theorem sample_layer_explicit_set (draw : nat) (layer_keys : list string)
    (layers : list Z) :
  layers <> [] ->
  Forall (fun i => (0 <= i < Z.of_nat (length layer_keys))%Z) layers ->
  exists i key,
    i ∈ layers /\ layer_keys !! Z.to_nat i = Some key /\
    sample_layer draw layer_keys None (Some layers) = Ok key.
Proof.
  intros Hne Hall.
  destruct (sample_from_indices draw layer_keys layers Hne Hall)
    as (i & key & Hi & Hkey & Hrun).
  exists i, key. split; [done |]. split; [done |]. exact Hrun.
Qed.

Lemma sample_layer_explicit_set_witness :
  exists i key,
    i ∈ [2; 0]%Z /\ ["l1"; "l2"; "l3"] !! Z.to_nat i = Some key /\
    sample_layer 4 ["l1"; "l2"; "l3"] None (Some [2; 0]%Z) = Ok key.
Proof.
  apply (sample_layer_explicit_set 4 ["l1"; "l2"; "l3"] [2; 0]%Z).
  - discriminate.
  - repeat constructor; closed_fact.
Defined.

(** X12: the indices [get_sample_layer_params] builds from the minimum and
    maximum layer are safe for [sample_layer]: without an explicit set and
    with [max(min_mixup_layer, 0) < min(max_mixup_layer, len(layer_keys))]
    (the defaults being 0 and the number of keys), the draw returns the key
    at an index between the two. *)
Theorem sample_layer_of_layer_params (draw : nat) (hp : hparams)
    (layer_keys : list string) :
  let n := Z.of_nat (length layer_keys) in
  let lo := Z.max (default 0%Z (min_mixup_layer hp)) 0 in
  let hi := Z.min (default n (max_mixup_layer hp)) n in
  mixup_layer_set hp = None ->
  (lo < hi)%Z ->
  exists i key,
    (lo <= i < hi)%Z /\ layer_keys !! Z.to_nat i = Some key /\
    sample_layer draw (get_sample_layer_params hp layer_keys).1 None
      (Some (get_sample_layer_params hp layer_keys).2) = Ok key.
Proof.
  intros n lo hi Hset Hlt. unfold get_sample_layer_params. rewrite Hset. simpl.
  fold n. fold lo. fold hi.
  destruct (sample_from_indices draw layer_keys (arange lo hi))
    as (i & key & Hi & Hkey & Hrun).
  - intros Hnil. assert (Ha : lo ∈ arange lo hi) by (apply elem_of_arange; lia).
    rewrite Hnil in Ha. by apply elem_of_nil in Ha.
  - apply Forall_forall. intros i Hi%elem_of_arange. lia.
  - exists i, key. split; [by apply elem_of_arange |]. split; [done |].
    exact Hrun.
Qed.

Lemma sample_layer_of_layer_params_witness :
  exists i key,
    (1 <= i < 3)%Z /\ ["l1"; "l2"; "l3"] !! Z.to_nat i = Some key /\
    sample_layer 7
      (get_sample_layer_params (HParams None (Some 1%Z) None) ["l1"; "l2"; "l3"]).1
      None
      (Some (get_sample_layer_params (HParams None (Some 1%Z) None)
               ["l1"; "l2"; "l3"]).2) = Ok key.
Proof.
  apply (sample_layer_of_layer_params 7 (HParams None (Some 1%Z) None)
           ["l1"; "l2"; "l3"]); reflexivity.
Defined.

(** ** sync_model_state_across_replicas: what it leaves alone *)

(** X13: [sync_model_state_across_replicas] touches the model state only:
    the step, the optimizer and the key of the state it returns are those
    it was given; the model state is averaged across replicas when it has
    a leaf; and the call logs its one warning either way. *)
Theorem sync_keeps_step_optimizer_rng `{Externals} (train_state : TrainState) :
  let out := sync_model_state_across_replicas train_state in
  global_step out.2 = global_step train_state /\
  optimizer out.2 = optimizer train_state /\
  rng out.2 = rng train_state /\
  (tree_leaves (model_state train_state) <> [] ->
   model_state out.2 = pmap_mean (model_state train_state)) /\
  length out.1 = 1.
Proof.
  unfold sync_model_state_across_replicas.
  destruct (tree_leaves (model_state train_state)); simpl; by repeat split.
Qed.

(** ** bind_rng_to_host_device *)

Lemma bind_to_valid (l : list string) :
  Forall (fun e => e ∈ ["host"; "device"]) l ->
  forallb (fun entry => bool_decide (entry ∈ ["host"; "device"])) l = true.
Proof.
  intros Hall. apply forallb_forall. intros e He%list_elem_of_In.
  rewrite Forall_forall in Hall. apply bool_decide_eq_true_2. by apply Hall.
Qed.

(** X14: only the presence of 'host' and 'device' in [bind_to] counts, not
    their order or number: two lists of valid entries with the same
    members bind a key the same way, the host always folded in before the
    device. *)
Theorem bind_rng_ignores_order `{Devices} (key : PRNGKey) (axis_name : string)
    (l1 l2 : list string) :
  Forall (fun e => e ∈ ["host"; "device"]) l1 ->
  (forall e, e ∈ l1 <-> e ∈ l2) ->
  bind_rng_to_host_device key axis_name (Some l1) =
  bind_rng_to_host_device key axis_name (Some l2) /\
  bind_rng_to_host_device key axis_name (Some l1) =
  Ok (let key := if bool_decide ("host" ∈ l1) then fold_in key host_id else key in
      if bool_decide ("device" ∈ l1) then fold_in key (axis_index axis_name)
      else key).
Proof.
  intros Hall Hsame.
  assert (Hall2 : Forall (fun e => e ∈ ["host"; "device"]) l2).
  { apply Forall_forall. intros e He%Hsame. rewrite Forall_forall in Hall.
    by apply Hall. }
  unfold bind_rng_to_host_device. simpl.
  rewrite !bind_to_valid by done. simpl.
  rewrite (bool_decide_ext _ _ (Hsame "host")), (bool_decide_ext _ _ (Hsame "device")).
  done.
Qed.

Lemma bind_rng_ignores_order_witness :
  @bind_rng_to_host_device sample_externals sample_devices 7 "batch"
    (Some ["device"; "host"]) =
  @bind_rng_to_host_device sample_externals sample_devices 7 "batch"
    (Some ["host"; "device"; "host"]).
Proof.
  apply (@bind_rng_ignores_order sample_externals sample_devices 7 "batch"
           ["device"; "host"] ["host"; "device"; "host"]).
  - repeat constructor.
  - intros e. rewrite !elem_of_cons, !elem_of_nil. tauto.
Defined.

(** X15: an entry of [bind_to] other than 'host' and 'device' stops
    [bind_rng_to_host_device] at its assertion, before any key is
    folded. *)
Theorem bind_rng_rejects_other_entries `{Devices} (key : PRNGKey)
    (axis_name : string) (bind_to : list string) (entry : string) :
  entry ∈ bind_to -> entry <> "host" -> entry <> "device" ->
  bind_rng_to_host_device key axis_name (Some bind_to) = Raise (AssertionError "").
Proof.
  intros Hin Hh Hd. unfold bind_rng_to_host_device. simpl.
  replace (forallb _ bind_to) with false; [done |].
  symmetry. apply not_true_is_false. intros Hall.
  rewrite forallb_forall in Hall.
  specialize (Hall entry (proj1 (list_elem_of_In _ _) Hin)).
  apply bool_decide_eq_true_1 in Hall.
  rewrite !elem_of_cons, elem_of_nil in Hall. tauto.
Qed.

Lemma bind_rng_rejects_other_entries_witness :
  @bind_rng_to_host_device sample_externals sample_devices 7 "batch"
    (Some ["host"; "replica"]) = Raise (AssertionError "").
Proof.
  apply (@bind_rng_rejects_other_entries sample_externals sample_devices 7 "batch"
           ["host"; "replica"] "replica").
  - rewrite !elem_of_cons. tauto.
  - discriminate.
  - discriminate.
Defined.

(** ** checkpoint_path *)

Lemma append_inv_head (s t1 t2 : string) : s +:+ t1 = s +:+ t2 -> t1 = t2.
Proof. induction s as [|c s IH]; simpl; [done |]. intros [= Heq]. by apply IH. Qed.

Lemma starts_with_sep_append (p t : string) :
  starts_with_sep (p +:+ t) =
  match p with
  | EmptyString => starts_with_sep t
  | String _ _ => starts_with_sep p
  end.
Proof. by destruct p. Qed.

Lemma pretty_N_char_not_sep (x : N) : pretty_N_char x <> "/"%char.
Proof. unfold pretty_N_char. by repeat case_match. Qed.

Lemma pretty_N_go_not_sep (x : N) (s : string) :
  starts_with_sep s = false -> starts_with_sep (pretty_N_go x s) = false.
Proof.
  revert s. induction (N.lt_wf_0 x) as [x _ IH]. intros s Hs.
  destruct (decide (x = 0%N)) as [-> | Hx]; [by rewrite pretty_N_go_0 |].
  rewrite pretty_N_go_step by lia. apply IH.
  - apply N.div_lt; lia.
  - simpl. apply bool_decide_eq_false_2, pretty_N_char_not_sep.
Qed.

(** The decimal form of an integer does not start with a slash. *)
Lemma pretty_Z_not_sep (z : Z) : starts_with_sep (pretty z) = false.
Proof.
  destruct z as [|p|p]; [done | | done].
  unfold pretty, pretty_Z, pretty, pretty_positive, pretty, pretty_N.
  case_decide; [done |]. by apply pretty_N_go_not_sep.
Qed.

Lemma starts_with_sep_name (prefix : string) (step : Z) :
  starts_with_sep (prefix +:+ pretty step) = starts_with_sep prefix.
Proof.
  rewrite starts_with_sep_append. destruct prefix; [|done].
  apply pretty_Z_not_sep.
Qed.

(** X16: two steps never share a checkpoint path: under one directory and
    one prefix, [checkpoint_path] gives different paths to different
    steps. *)
Theorem checkpoint_path_step_inj (ckpt_dir prefix : string) (step1 step2 : Z) :
  checkpoint_path ckpt_dir step1 prefix = checkpoint_path ckpt_dir step2 prefix ->
  step1 = step2.
Proof.
  unfold checkpoint_path, path_join. rewrite !starts_with_sep_name.
  intros Heq. apply (inj pretty), (append_inv_head prefix).
  destruct (starts_with_sep prefix); [done |].
  destruct (bool_decide (ckpt_dir = "") || ends_with_sep ckpt_dir)%bool.
  - by apply (append_inv_head ckpt_dir).
  - apply (append_inv_head "/"), (append_inv_head ckpt_dir). exact Heq.
Qed.

Lemma checkpoint_path_step_inj_witness :
  checkpoint_path "/tmp/exp" 100 "checkpoint_" = "/tmp/exp/checkpoint_100" /\
  (100 = 100)%Z.
Proof.
  split; [reflexivity |].
  apply (checkpoint_path_step_inj "/tmp/exp" "checkpoint_" 100 100). reflexivity.
Defined.

(** X17: the directory is part of the path unless the prefix is absolute:
    a prefix that starts with a slash makes [checkpoint_path] return the
    prefix and the step alone; any other prefix follows the directory,
    with one slash put between them when the directory is not empty and
    does not end in one. *)
Theorem checkpoint_path_directory (ckpt_dir prefix : string) (step : Z) :
  checkpoint_path ckpt_dir step prefix =
  if starts_with_sep prefix then prefix +:+ pretty step
  else if (bool_decide (ckpt_dir = "") || ends_with_sep ckpt_dir)%bool
       then ckpt_dir +:+ prefix +:+ pretty step
       else ckpt_dir +:+ "/" +:+ prefix +:+ pretty step.
Proof. unfold checkpoint_path, path_join. by rewrite starts_with_sep_name. Qed.

(** ** get_num_training_steps *)

(** X18: training by epochs drops the remainder of every epoch: when no
    number of steps is set, with a positive number of epochs [e], [n >= 0]
    training examples and a positive batch size [b],
    [get_num_training_steps] returns [spe * e] total steps and [spe] steps
    per epoch, where [spe] is the number of whole batches in [n]:
    [spe * b <= n < (spe + 1) * b]. *)
Theorem training_steps_from_epochs (hp dataset_metadata : gmap string (option Z))
    (e n b : Z) :
  (forall s, hp !! "num_training_steps" = Some (Some s) -> s = 0%Z) ->
  hp !! "num_training_epochs" = Some (Some e) ->
  dataset_metadata !! "num_train_examples" = Some (Some n) ->
  hp !! "batch_size" = Some (Some b) ->
  (0 < e)%Z -> (0 <= n)%Z -> (0 < b)%Z ->
  exists spe,
    get_num_training_steps hp dataset_metadata = Returns (spe * e)%Z (Some spe) /\
    (spe * b <= n < (spe + 1) * b)%Z.
Proof.
  intros Hsteps Hepochs Hexamples Hbatch He Hn Hb.
  exists (n `div` b)%Z. split.
  - unfold get_num_training_steps. rewrite Hepochs, Hexamples, Hbatch.
    replace (e =? 0)%Z with false by lia. replace (b =? 0)%Z with false by lia.
    destruct (hp !! "num_training_steps") as [[s|]|] eqn:Hs; [|done..].
    by rewrite (Hsteps s eq_refl).
  - pose proof (Z.mul_div_le n b Hb). pose proof (Z.mul_succ_div_gt n b Hb). lia.
Qed.

Lemma training_steps_from_epochs_witness :
  get_num_training_steps
    (<["num_training_epochs" := Some 3%Z]> (<["batch_size" := Some 32%Z]> ∅))
    (<["num_train_examples" := Some 1000%Z]> ∅) = Returns 93 (Some 31%Z).
Proof.
  destruct (training_steps_from_epochs
              (<["num_training_epochs" := Some 3%Z]> (<["batch_size" := Some 32%Z]> ∅))
              (<["num_train_examples" := Some 1000%Z]> ∅) 3 1000 32)
    as (spe & Hcall & Hspe).
  - intros s Hs. discriminate Hs.
  - reflexivity.
  - reflexivity.
  - reflexivity.
  - lia.
  - lia.
  - lia.
  - rewrite Hcall. assert (spe = 31%Z) as -> by lia. reflexivity.
Defined.

(** X19: steps and epochs exclude each other: with both
    [num_training_steps] and [num_training_epochs] set to numbers other
    than zero, [get_num_training_steps] fails at its assertion. *)
Theorem training_steps_and_epochs_conflict
    (hp dataset_metadata : gmap string (option Z)) (s e : Z) :
  hp !! "num_training_steps" = Some (Some s) ->
  hp !! "num_training_epochs" = Some (Some e) ->
  s <> 0%Z -> e <> 0%Z ->
  get_num_training_steps hp dataset_metadata = Raises (AssertionError "").
Proof.
  intros Hs He Hs0 He0. unfold get_num_training_steps. rewrite Hs, He.
  replace (s =? 0)%Z with false by lia. by replace (e =? 0)%Z with false by lia.
Qed.

Lemma training_steps_and_epochs_conflict_witness :
  get_num_training_steps
    (<["num_training_steps" := Some 500%Z]> (<["num_training_epochs" := Some 3%Z]> ∅))
    ∅ = Raises (AssertionError "").
Proof.
  apply (training_steps_and_epochs_conflict _ _ 500 3); closed_fact.
Defined.

(** ** compute_global_mean_metrics *)

Lemma Qsum_pointwise_le (vs ns : list Q) :
  Forall2 Qle vs ns -> (Qsum vs <= Qsum ns)%Q.
Proof.
  induction 1 as [|v n vs ns Hvn _ IH]; simpl; [apply Qle_refl |].
  by apply Qplus_le_compat.
Qed.

Lemma Qsum_nonneg (vs : list Q) : Forall (Qle 0) vs -> (0 <= Qsum vs)%Q.
Proof.
  induction 1 as [|v vs Hv _ IH]; simpl; [apply Qle_refl |].
  rewrite <- (Qplus_0_l 0). by apply Qplus_le_compat.
Qed.


(** X20: a ratio metric stays a ratio: for a metric given as values and
    normalizers with [0 <= value <= normalizer] on every device (correct
    predictions out of examples seen, say),
    [compute_global_mean_metrics] records under the same key the sum of
    the values over the sum of the normalizers, a number between 0 and 1,
    and records 0, without dividing, when the normalizers do not sum to
    more than zero. *)
Theorem global_mean_of_ratio (metrics_dict : gmap string metric) (key : string)
    (values normalizers : list Q) :
  metrics_dict !! key = Some (MetricPair values normalizers) ->
  Forall (Qle 0) values ->
  Forall2 Qle values normalizers ->
  exists q,
    compute_global_mean_metrics metrics_dict !! key = Some (Finite q) /\
    (0 <= q)%Q /\ (q <= 1)%Q /\
    ((Qsum normalizers <= 0)%Q -> q = 0%Q) /\
    ((0 < Qsum normalizers)%Q -> q = (Qsum values / Qsum normalizers)%Q).
Proof.
  intros Hkey Hpos Hle. unfold compute_global_mean_metrics.
  rewrite lookup_fmap, Hkey. simpl.
  pose proof (Qsum_nonneg values Hpos) as Hv.
  pose proof (Qsum_pointwise_le values normalizers Hle) as Hvn.
  unfold Qgtb. destruct (Qle_bool (Qsum normalizers) 0) eqn:Hn; simpl.
  - apply Qle_bool_iff in Hn.
    eexists. split; [reflexivity |]. split; [apply Qle_refl |].
    split; [discriminate |]. split; [done |]. intros Hgt. lra.
  - assert (Hgt : (0 < Qsum normalizers)%Q).
    { apply Qnot_le_lt. intros Hn'%Qle_bool_iff. congruence. }
    eexists. split; [reflexivity |]. split; [|split; [|split]].
    + apply Qle_shift_div_l; [done |]. by rewrite Qmult_0_l.
    + apply Qle_shift_div_r; [done |]. by rewrite Qmult_1_l.
    + intros Hle0. lra.
    + done.
Qed.

Lemma global_mean_of_ratio_witness :
  compute_global_mean_metrics
    {["accuracy" := MetricPair [0%Q; 0%Q] [0%Q; 0%Q]]} !! "accuracy" =
  Some (Finite 0%Q).
Proof.
  destruct (global_mean_of_ratio
              {["accuracy" := MetricPair [0%Q; 0%Q] [0%Q; 0%Q]]} "accuracy"
              [0%Q; 0%Q] [0%Q; 0%Q]) as (q & Hcall & _ & _ & Hzero & _).
  - reflexivity.
  - repeat constructor; discriminate.
  - repeat constructor; discriminate.
  - rewrite Hcall, Hzero; [reflexivity | discriminate].
Defined.



(** ** pseudo_label_generator *)

(** X22: [pseudo_label_generator] rewrites the label and, when the
    transformer gives weights, the weights, and nothing else: on a batch
    that holds the input key, the batch returned has the transformed logits
    of the model under 'label', the new weights under 'weights' if there
    are any and the old entry otherwise, and every other key as before. *)
Theorem pseudo_labels_change_label_and_weights `{Forward}
    (b : gmap string ndarray) (train_state : TrainState)
    (transformer : ndarray -> ndarray * option ndarray)
    (input_key : string) (train : bool) (inp : ndarray) :
  b !! input_key = Some inp ->
  let logits :=
    apply_model (optimizer train_state) (model_state train_state)
      (random_split (rng train_state)).2 inp train in
  exists b',
    pseudo_label_generator b train_state transformer input_key train = Ok b' /\
    b' !! "label" = Some (transformer logits).1 /\
    b' !! "weights" = match (transformer logits).2 with
                      | Some w => Some w
                      | None => b !! "weights"
                      end /\
    forall key, key <> "label" -> key <> "weights" -> b' !! key = b !! key.
Proof.
  intros Hinp logits. unfold pseudo_label_generator, batch_lookup.
  rewrite Hinp. run.
  destruct (random_split (rng train_state)) as [k1 dropout_rng] eqn:Hsplit.
  subst logits. simpl.
  destruct (transformer _) as [new_label [w|]]; simpl.
  - eexists. split; [reflexivity |]. split; [|split].
    + rewrite lookup_insert_ne by done. apply lookup_insert_eq.
    + apply lookup_insert_eq.
    + intros key Hl Hw. by rewrite !lookup_insert_ne.
  - eexists. split; [reflexivity |]. split; [|split].
    + apply lookup_insert_eq.
    + by rewrite lookup_insert_ne.
    + intros key Hl Hw. by rewrite lookup_insert_ne.
Qed.

Lemma pseudo_labels_change_label_and_weights_witness :
  exists b',
    @pseudo_label_generator sample_externals sample_forward
      (<["inputs" := NDArray [2] [[1%Q; 2%Q]]]>
         (<["label" := NDArray [] [[0%Q]]]> (<["domain" := NDArray [] [[7%Q]]]> ∅)))
      (@MkTrainState sample_externals 0%Z tt PNone 5) keep_logits "inputs" true
    = Ok b' /\
    b' !! "label" = Some (NDArray [2] [[1%Q; 2%Q]]) /\
    b' !! "domain" = Some (NDArray [] [[7%Q]]).
Proof.
  destruct (@pseudo_labels_change_label_and_weights sample_externals sample_forward
              (<["inputs" := NDArray [2] [[1%Q; 2%Q]]]>
                 (<["label" := NDArray [] [[0%Q]]]>
                    (<["domain" := NDArray [] [[7%Q]]]> ∅)))
              (@MkTrainState sample_externals 0%Z tt PNone 5) keep_logits
              "inputs" true (NDArray [2] [[1%Q; 2%Q]]))
    as (b' & Hcall & Hlabel & _ & Hframe).
  - reflexivity.
  - exists b'. split; [exact Hcall |]. split; [exact Hlabel |].
    rewrite Hframe by discriminate. reflexivity.
Defined.

(** ** interpolate: a one-hot matching selects rows *)

Section OneHot.

Local Open Scope Q_scope.

Lemma vadd_one_hot_hit (u : list Q) :
  Forall2 Qeq (vadd (vscale 1 u) (repeat 0 (length u))) u.
Proof.
  unfold vadd, vscale. induction u as [|a u IH]; simpl; constructor; [ring | done].
Qed.

Lemma vadd_one_hot_miss (u t : list Q) :
  length u = length t -> Forall2 Qeq (vadd (vscale 0 u) t) t.
Proof.
  unfold vadd, vscale. revert t.
  induction u as [|a u IH]; intros [|b t] Hlen; simplify_eq/=; constructor;
    [ring | by apply IH].
Qed.

Lemma vadd_proper_r (u t t' : list Q) :
  Forall2 Qeq t t' -> Forall2 Qeq (vadd u t) (vadd u t').
Proof.
  unfold vadd. intros Ht. revert u.
  induction Ht as [|b b' t t' Hb _ IH]; intros [|a u]; simpl; constructor;
    [by rewrite Hb | apply IH].
Qed.

Lemma Forall2_Qeq_refl (u : list Q) : Forall2 Qeq u u.
Proof. induction u; constructor; [reflexivity | done]. Qed.

Lemma Forall2_Qeq_trans (u v w : list Q) :
  Forall2 Qeq u v -> Forall2 Qeq v w -> Forall2 Qeq u w.
Proof.
  intros Huv. revert w. induction Huv as [|a b u v Hab _ IH]; intros w Hvw;
    inversion Hvw; subst; constructor; [by etrans | by apply IH].
Qed.

(** The weighted sum of rows under an indicator of index [i] is row [i],
    or zero when [i] is not among the indices. *)
Lemma one_hot_row_sum (w : nat) (xs : list (list Q)) (s i : nat) :
  Forall (fun r => length r = w) xs ->
  Forall2 Qeq
    (vsum w (zip_with vscale
               (map (fun j => if bool_decide (i = j) then 1 else 0)
                    (seq s (length xs))) xs))
    (if bool_decide (s <= i < s + length xs)%nat then nth (i - s) xs []
     else repeat 0 w).
Proof.
  intros Hxs. revert s. induction Hxs as [|r xs Hr Hxs IH]; intros s.
  - simpl. rewrite bool_decide_eq_false_2 by lia. apply Forall2_Qeq_refl.
  - cbn [length seq map zip_with]. unfold vsum at 1. cbn [foldr].
    fold (vsum w (zip_with vscale
                    (map (fun j => if bool_decide (i = j) then 1 else 0)
                         (seq (S s) (length xs))) xs)).
    specialize (IH (S s)).
    destruct (decide (i = s)) as [-> | Hne].
    + rewrite (bool_decide_eq_true_2 (s = s)) by done.
      rewrite bool_decide_eq_false_2 in IH by lia.
      rewrite bool_decide_eq_true_2 by lia.
      replace (s - s)%nat with 0%nat by lia. simpl nth.
      eapply Forall2_Qeq_trans; [by apply vadd_proper_r |].
      rewrite <- Hr. apply vadd_one_hot_hit.
    + rewrite (bool_decide_eq_false_2 (i = s)) by done.
      eapply Forall2_Qeq_trans.
      { apply vadd_one_hot_miss. rewrite Hr. symmetry.
        by apply einsum_row_width. }
      destruct (decide (S s <= i < S s + length xs)%nat) as [Hin | Hout].
      * rewrite bool_decide_eq_true_2 in IH by done.
        rewrite bool_decide_eq_true_2 by (simpl; lia).
        replace (i - s)%nat with (S (i - S s)) by lia. exact IH.
      * rewrite bool_decide_eq_false_2 in IH by done.
        rewrite bool_decide_eq_false_2 by (simpl; lia). exact IH.
Qed.

End OneHot.

(** X23: a matching matrix that is the identity with its rows reordered
    makes the [einsum] of [interpolate] pick rows: for well-formed
    representations and a row order of valid indices, the interpolation
    target is the representation with its rows in that order. *)
Theorem einsum_permutation_selects_rows (ind : list nat) (x : ndarray) :
  wf_ndarray x ->
  Forall (fun i => i < length (rows x)) ind ->
  exists target,
    einsum_ij_j (random_permutation ind (eye (length (rows x)))) x = Ok target /\
    inner_shape target = inner_shape x /\
    Forall2 (Forall2 Qeq) (rows target) (random_permutation ind (rows x)).
Proof.
  intros Hwf Hind. rewrite einsum_ok.
  2:{ unfold random_permutation.
      apply Forall_map, Forall_forall. intros i Hi. simpl.
      rewrite Forall_forall in Hind. rewrite eye_row by (by apply Hind).
      by rewrite length_map, length_seq. }
  eexists. split; [reflexivity |]. split; [reflexivity |].
  - simpl. unfold random_permutation. rewrite map_map.
    induction Hind as [|i ind Hi _ IH]; simpl; constructor; [|exact IH].
    rewrite eye_row by done.
    pose proof (one_hot_row_sum (row_size x) (rows x) 0 i Hwf) as Hrow.
    rewrite bool_decide_eq_true_2 in Hrow by lia.
    by replace (i - 0) with i in Hrow by lia.
Qed.

Lemma einsum_permutation_selects_rows_witness :
  exists target,
    einsum_ij_j (random_permutation [1; 0] (eye 2))
      (NDArray [2] [[1%Q; 2%Q]; [3%Q; 4%Q]]) = Ok target /\
    Forall2 (Forall2 Qeq) (rows target) [[3%Q; 4%Q]; [1%Q; 2%Q]].
Proof.
  destruct (einsum_permutation_selects_rows [1; 0]
              (NDArray [2] [[1%Q; 2%Q]; [3%Q; 4%Q]]))
    as (target & Hcall & _ & Hrows).
  - repeat constructor.
  - repeat constructor.
  - exists target. split; [exact Hcall | exact Hrows].
Defined.

(** ** logit_transformer *)

Lemma result_map_ok {A B : Type} (f : A -> result B) (P : A -> B -> Prop)
    (l : list A) :
  Forall (fun x => exists y, f x = Ok y /\ P x y) l ->
  exists ys, result_map f l = Ok ys /\ Forall2 P l ys.
Proof.
  induction 1 as [|x l (y & Hy & HP) _ (ys & Hys & HPs)]; simpl.
  - by exists [].
  - exists (y :: ys). rewrite Hy, Hys. split; [done | by constructor].
Qed.

Lemma argmax_from_first_largest (pre l : list Q) (best : Q) (best_i : nat) :
  pre !! best_i = Some best ->
  (forall j x, pre !! j = Some x -> (x <= best)%Q) ->
  (forall j x, j < best_i -> pre !! j = Some x -> (x < best)%Q) ->
  first_largest (pre ++ l) (argmax_from best best_i (length pre) l).
Proof.
  revert pre best best_i.
  induction l as [|x l IH]; intros pre best best_i Hbest Hmax Hfirst.
  - rewrite app_nil_r. by exists best.
  - simpl. replace (pre ++ x :: l) with ((pre ++ [x]) ++ l)
      by (by rewrite <- app_assoc).
    replace (S (length pre)) with (length (pre ++ [x]))
      by (rewrite length_app; simpl; lia).
    assert (Hlook : forall j y, (pre ++ [x]) !! j = Some y ->
              pre !! j = Some y \/ (j = length pre /\ y = x)).
    { intros j y Hj. destruct (decide (j < length pre)) as [Hlt | Hge].
      - left. by rewrite lookup_app_l in Hj.
      - right. rewrite lookup_app_r in Hj by lia.
        destruct (j - length pre) as [|k] eqn:Hk; simpl in Hj; [|done].
        split; [lia | congruence]. }
    unfold Qgtb. destruct (Qle_bool x best) eqn:Hle; simpl.
    + apply Qle_bool_iff in Hle. apply IH.
      * rewrite lookup_app_l; [done | by eapply lookup_lt_Some].
      * intros j y [Hj | [_ ->]]%Hlook; [by eapply Hmax | done].
      * intros j y Hlt [Hj | [-> ->]]%Hlook; [by eapply Hfirst |].
        apply lookup_lt_Some in Hbest. lia.
    + assert (Hgt : (best < x)%Q).
      { apply Qnot_le_lt. intros Hle'%Qle_bool_iff. congruence. }
      apply IH.
      * rewrite lookup_app_r by lia. by rewrite Nat.sub_diag.
      * intros j y [Hj | [_ ->]]%Hlook; [|apply Qle_refl].
        apply Qlt_le_weak. eapply Qle_lt_trans; [by eapply Hmax | done].
      * intros j y Hlt [Hj | [-> ->]]%Hlook; [|lia].
        eapply Qle_lt_trans; [by eapply Hmax | done].
Qed.

Lemma argmax_first_largest (row : list Q) :
  row <> [] -> exists k, argmax row = Ok k /\ first_largest row k.
Proof.
  intros Hne. destruct row as [|x l]; [done |].
  eexists. split; [reflexivity |].
  apply (argmax_from_first_largest [x] l x 0); [done | |].
  - intros [|j] y Hj; simplify_eq/=. apply Qle_refl.
  - intros j y Hj. lia.
Qed.

Lemma row_extremes_ok (logits : list (list Q)) :
  Forall (fun row => row <> []) logits ->
  exists top bottom,
    result_map row_max logits = Ok top /\
    result_map row_min logits = Ok bottom /\
    length top = length logits /\ length bottom = length logits.
Proof.
  intros Hrows.
  destruct (result_map_ok row_max (fun _ _ => True) logits) as (top & Htop & Ht).
  { eapply Forall_impl; [exact Hrows |]. intros [|x l] Hne; [done |]. by eexists. }
  destruct (result_map_ok row_min (fun _ _ => True) logits) as (bot & Hbot & Hb).
  { eapply Forall_impl; [exact Hrows |]. intros [|x l] Hne; [done |]. by eexists. }
  exists top, bot. split; [done |]. split; [done |].
  split; symmetry; by eapply Forall2_length.
Qed.

Lemma logit_confidence_ok (logits : list (list Q)) :
  logits <> [] ->
  Forall (fun row => row <> []) logits ->
  exists top bottom c cs,
    result_map row_max logits = Ok top /\
    result_map row_min logits = Ok bottom /\
    zip_with Qminus top bottom = c :: cs /\
    length (c :: cs) = length logits.
Proof.
  intros Hne Hrows.
  destruct (row_extremes_ok logits Hrows) as (top & bot & Htop & Hbot & Ht & Hb).
  destruct logits as [|row logits]; [done |].
  destruct top as [|t top]; [done |]. destruct bot as [|b bot]; [done |].
  exists (t :: top), (b :: bot), (t - b)%Q, (zip_with Qminus top bot).
  split; [exact Htop |]. split; [exact Hbot |]. split; [reflexivity |].
  cbn [length] in *. rewrite length_zip_with. lia.
Qed.

(** X24: the weights of [logit_transformer] are a mask: on a batch with at
    least one example, when every example has at least one class score, the
    threshold is between 0 and 1 and no class selection is asked for, the
    call returns one weight per example, each of them 0 or 1, in every
    label mode. *)
Theorem logit_transformer_weights_mask `{Numerics} (logits : list (list Q))
    (temp threshold : Q) (mode : string) :
  logits <> [] ->
  Forall (fun row => row <> []) logits ->
  (0 <= threshold)%Q -> (threshold <= 1)%Q ->
  exists new_labels weights,
    logit_transformer logits temp threshold mode None = Ok (new_labels, weights) /\
    length weights = length logits /\
    Forall (fun w => w = 0%Q \/ w = 1%Q) weights.
Proof.
  intros Hne Hrows _ _.
  destruct (logit_confidence_ok logits Hne Hrows)
    as (top & bot & c & cs & Htop & Hbot & Hzip & Hlen).
  destruct (result_map_ok argmax first_largest logits) as (ks & Hks & _).
  { eapply Forall_impl; [exact Hrows |]. intros row. apply argmax_first_largest. }
  unfold logit_transformer. rewrite Htop, Hbot.
  unfold mbind at 1 2, result_bind. rewrite Hzip.
  unfold mbind at 1, result_bind. rewrite Hks.
  assert (Hmask : forall alpha l,
             Forall (fun w => w = 0%Q \/ w = 1%Q)
                    (map (fun c => if Qle_bool alpha c then 1%Q else 0%Q) l)).
  { intros alpha l. apply Forall_map, Forall_forall. intros x _. simpl.
    destruct (Qle_bool alpha x); auto. }
  repeat case_bool_decide; eexists _, _; (split; [reflexivity |]);
    (split; [|apply Hmask]); by rewrite length_map.
Qed.

Lemma logit_transformer_weights_mask_witness :
  exists new_labels weights,
    @logit_transformer sample_numerics [[1%Q; 5%Q]; [2%Q; 3%Q]] 1%Q 1%Q "soft" None =
      Ok (new_labels, weights) /\
    length weights = 2 /\
    Forall (fun w => w = 0%Q \/ w = 1%Q) weights.
Proof.
  apply (@logit_transformer_weights_mask sample_numerics).
  - discriminate.
  - repeat constructor; discriminate.
  - discriminate.
  - discriminate.
Defined.

(** X25: the sharp labels are the classes with the largest score: in
    'sharp' mode without class selection, on a batch with at least one
    example, all examples having a class score, and a threshold between 0
    and 1, [logit_transformer] returns for each example the index of the
    first largest entry of its row. *)
Theorem logit_transformer_sharp_labels `{Numerics} (logits : list (list Q))
    (temp threshold : Q) :
  logits <> [] ->
  Forall (fun row => row <> []) logits ->
  (0 <= threshold)%Q -> (threshold <= 1)%Q ->
  exists ks weights,
    logit_transformer logits temp threshold "sharp" None =
      Ok (ClassLabels ks, weights) /\
    Forall2 first_largest logits ks.
Proof.
  intros Hne Hrows _ _.
  destruct (logit_confidence_ok logits Hne Hrows)
    as (top & bot & c & cs & Htop & Hbot & Hzip & Hlen).
  destruct (result_map_ok argmax first_largest logits) as (ks & Hks & Hfirst).
  { eapply Forall_impl; [exact Hrows |]. intros row. apply argmax_first_largest. }
  unfold logit_transformer. rewrite Htop, Hbot.
  unfold mbind at 1 2, result_bind. rewrite Hzip.
  unfold mbind at 1, result_bind. rewrite Hks.
  rewrite bool_decide_eq_true_2 by done.
  by eexists _, _.
Qed.

Lemma logit_transformer_sharp_labels_witness :
  exists ks weights,
    @logit_transformer sample_numerics [[1%Q; 5%Q; 5%Q]; [4%Q; 3%Q; 2%Q]] 1%Q 1%Q
      "sharp" None = Ok (ClassLabels ks, weights) /\
    Forall2 first_largest [[1%Q; 5%Q; 5%Q]; [4%Q; 3%Q; 2%Q]] ks.
Proof.
  apply (@logit_transformer_sharp_labels sample_numerics).
  - discriminate.
  - repeat constructor; discriminate.
  - discriminate.
  - discriminate.
Defined.

(** X26: a label mode that is neither 'sharp' nor 'soft' is not refused:
    on a batch with at least one example, all examples having a class
    score, and a threshold between 0 and 1, [logit_transformer] hands the
    logits back as the labels, with one weight per example. *)
Theorem logit_transformer_other_mode `{Numerics} (logits : list (list Q))
    (temp threshold : Q) (mode : string) (logit_indices : option (list Z)) :
  mode <> "sharp" -> mode <> "soft" ->
  logits <> [] ->
  Forall (fun row => row <> []) logits ->
  (0 <= threshold)%Q -> (threshold <= 1)%Q ->
  exists weights,
    logit_transformer logits temp threshold mode logit_indices =
      Ok (ArrayLabels logits, weights) /\
    length weights = length logits.
Proof.
  intros Hsharp Hsoft Hne Hrows _ _.
  destruct (logit_confidence_ok logits Hne Hrows)
    as (top & bot & c & cs & Htop & Hbot & Hzip & Hlen).
  unfold logit_transformer. rewrite Htop, Hbot.
  unfold mbind at 1 2, result_bind. rewrite Hzip.
  unfold mbind at 1, result_bind.
  rewrite !bool_decide_eq_false_2 by done.
  eexists. split; [reflexivity |]. by rewrite length_map.
Qed.

Lemma logit_transformer_other_mode_witness :
  exists weights,
    @logit_transformer sample_numerics [[1%Q; 5%Q]; [2%Q; 3%Q]] 1%Q 1%Q "hard"
      (Some [0%Z]) = Ok (ArrayLabels [[1%Q; 5%Q]; [2%Q; 3%Q]], weights) /\
    length weights = 2.
Proof.
  apply (@logit_transformer_other_mode sample_numerics); try discriminate.
  repeat constructor; discriminate.
Defined.

(** A batch without examples does not get past [jnp.quantile]. *)
Lemma logit_transformer_empty_batch `{Numerics} (temp threshold : Q)
    (mode : string) (logit_indices : option (list Z)) :
  logit_transformer [] temp threshold mode logit_indices = Raise TypeError.
Proof. reflexivity. Qed.
